(** * whatmodels: the model/GPU compatibility engine (calculations.js)

    A shallow embedding of the pure calculation functions of the
    repository (calcMultiGpuResources, calcMaxContext, calcTokPerSec,
    calcMaxContextWithOffload, calcOffloadConfig, calcOffloadPenalty,
    qualityTier, codingQualityTier, compareScores, bucketModels and
    groupVariants) together with the properties its specification states
    about them, and of the two functions of GpuInput.svelte that feed
    calcMultiGpuResources (applyMultiGpu and onQuantityChange).

    Numbers.  The quantities of the source (gigabytes, GB/s, thousands of
    tokens, benchmark scores) are JavaScript numbers, that is binary64
    floats.  Two embeddings are given.

    The engine as a whole is embedded over the exact rationals [Q]: [+],
    [-], [*] and [/] are the field operations, NaN and the infinities are
    left out, [null] / [undefined] are [None], and the comparisons of the
    source are the boolean comparisons of [Q], so every function evaluates
    on concrete inputs.  The source divides by [kv_per_1k_gb] only behind a
    guard that makes it positive, by [weight_gb + 1.0] and by [weight_gb];
    catalog records have [weight_gb > 0], so the convention [x / 0 = 0] of
    [Q] is never relied on for them.  This idealisation carries the
    properties that do not hang on the value of a rounded result:
    equivalences between functions that run the same operations, orderings
    and bounds that a monotone rounding preserves, direct comparisons of
    inputs, and the structure of the buckets and groups.  It does not
    predict the value the code returns at an input where binary64 rounding
    moves a quotient, a product or a sum across an integer or a threshold.

    The three estimators whose specification is a formula on the returned
    value (calcMaxContext, calcTokPerSec, calcMultiGpuResources) are
    therefore embedded a second time, in module [B64], over the primitive
    binary64 floats: every arithmetic operation rounds to nearest-even, the
    literals are the doubles the language reads them as, and [Math.floor],
    [Math.round] and [Math.min] are computed exactly on mantissa and
    exponent, NaN, infinities and signed zeros included.  The value
    formulas are stated and proved there. *)

From Stdlib Require Import QArith Qround Qminmax Lqa Lia.
From Stdlib Require Import Sorting.Sorted Sorting.Permutation.
From Stdlib Require Import Floats.
From stdpp Require Import gmap strings list.

#[local] Set Warnings "-inexact-float".
Local Open Scope Q_scope.

(** ** JavaScript arithmetic on rationals *)

Module Js.

(** [x <= y], [x < y], [x >= y], [x > y], [x === y] on numbers. *)
Definition leb (x y : Q) : bool := Qle_bool x y.
Definition ltb (x y : Q) : bool := negb (Qle_bool y x).
Definition geb (x y : Q) : bool := Qle_bool y x.
Definition gtb (x y : Q) : bool := negb (Qle_bool x y).
Definition eqb (x y : Q) : bool := Qeq_bool x y.

(** [Math.floor], [Math.round] (ties go up), [Math.min], [Math.max]. *)
Definition floor (x : Q) : Q := inject_Z (Qfloor x).
Definition round (x : Q) : Q := inject_Z (Qfloor (x + 0.5)).
Definition min (x y : Q) : Q := Qmin x y.
Definition max (x y : Q) : Q := Qmax x y.

(** [x != null]. *)
Definition nonnull {A : Type} (x : option A) : bool :=
  match x with Some _ => true | None => false end.

(** [a || b] on numbers: [a] when it is truthy (non-zero), else [b]. *)
Definition or_else (a b : Q) : Q := if Qeq_bool a 0 then b else a.

(** [Array.prototype.sort(cmp)].  The language requires a stable sort;
    for a consistent comparator the result is the unique stable sorted
    arrangement, computed here by stable insertion: an element moves
    past exactly those to its right that compare strictly above it
    ([cmp x y > 0]). *)
Section Sort.
Context {A : Type} (cmp : A -> A -> Q).

Fixpoint insert (x : A) (l : list A) : list A :=
  match l with
  | [] => [x]
  | y :: l' => if gtb (cmp x y) 0 then y :: insert x l' else x :: y :: l'
  end.

Fixpoint sort (l : list A) : list A :=
  match l with
  | [] => []
  | x :: l' => insert x (sort l')
  end.
End Sort.

End Js.

(** ** Data model *)

(** A model record of the catalog (one quantized build). *)
Module Model.
Record t : Type := mk {
  id : string;
  name : string;
  params_b : Q;
  quantization : string;
  weight_gb : Q;
  kv_per_1k_gb : Q;
  max_context_k : Q;
  layers : option Q;
  mmlu_score : Q;
  swe_bench_score : option Q;
  features : option (list string);
  notes : option string
}.
End Model.

(** [{ vram, bandwidth }] of calcMultiGpuResources. *)
Module Resources.
Record t : Type := mk { vram : Q; bandwidth : option Q }.
End Resources.

(** The result of calcMaxContextWithOffload. *)
Module CtxResult.
Record t : Type := mk {
  maxCtxK : Q;
  vramCtxK : Q;
  ramCtxK : Q;
  usingSystemRam : bool
}.
End CtxResult.

(** The result of calcOffloadConfig: [{ feasible: false }] carries no other
    field, [{ feasible: true, ... }] carries the four plan fields. *)
Module Offload.
Record plan : Type := mk {
  gpuWeightGB : Q;
  ramWeightGB : Q;
  offloadRatio : Q;
  estimatedLayers : Q
}.
Inductive t : Type :=
| Infeasible : t
| Feasible : plan -> t.

Definition feasible (c : t) : bool :=
  match c with Feasible _ => true | Infeasible => false end.
End Offload.

(** The result of calcOffloadPenalty. *)
Module Penalty.
Record t : Type := mk { penaltyPercent : Q; speedMultiplier : Q }.
End Penalty.

(** ** Constants *)

Definition INFERENCE_OVERHEAD_GB : Q := 1.0.
Definition TIGHT_FIT_CONTEXT_K : Q := 4.
Definition MAX_OFFLOAD_RATIO : Q := 0.5.

(** ** Resource scaler, context and throughput estimators *)

Definition calcMultiGpuResources (vram : Q) (bandwidth : option Q)
    (quantity : option Q) : Resources.t :=
  match quantity with
  | None => Resources.mk vram bandwidth
  | Some q =>
      if Js.eqb q 1 then Resources.mk vram bandwidth
      else
        let totalVram := vram * q in
        match bandwidth with
        | None => Resources.mk totalVram None
        | Some b =>
            let efficiency :=
              if Js.eqb q 2 then 0.85 else if Js.eqb q 3 then 0.75 else 0.70 in
            let effectiveBandwidth := Js.round (b * q * efficiency) in
            Resources.mk totalVram (Some effectiveBandwidth)
        end
  end.

Definition calcMaxContext (model : Model.t) (userVram : Q) : Q :=
  let availableForKv := userVram - Model.weight_gb model in
  if Js.leb availableForKv 0 then 0
  else if Js.leb (Model.kv_per_1k_gb model) 0 then Model.max_context_k model
  else
    let maxTokensK := availableForKv / Model.kv_per_1k_gb model in
    Js.min (Js.floor maxTokensK) (Model.max_context_k model).

Definition calcTokPerSec (model : Model.t) (bandwidth : option Q) : option Q :=
  match bandwidth with
  | None => None
  | Some b => Some (Js.round (b / (Model.weight_gb model + INFERENCE_OVERHEAD_GB)))
  end.

Definition calcMaxContextWithOffload (model : Model.t) (vram : Q)
    (systemRamGB : option Q) : CtxResult.t :=
  let availableForKv := vram - Model.weight_gb model in
  if Js.leb availableForKv 0 then CtxResult.mk 0 0 0 false
  else if Js.leb (Model.kv_per_1k_gb model) 0 then
    CtxResult.mk (Model.max_context_k model) (Model.max_context_k model) 0 false
  else
    let vramCtxK := Js.floor (availableForKv / Model.kv_per_1k_gb model) in
    match systemRamGB with
    | None =>
        let capped := Js.min vramCtxK (Model.max_context_k model) in
        CtxResult.mk capped capped 0 false
    | Some ram =>
        let ramCtxK := Js.floor (ram / Model.kv_per_1k_gb model) in
        let totalCtxK := Js.min (vramCtxK + ramCtxK) (Model.max_context_k model) in
        let actualRamCtxK := totalCtxK - Js.min vramCtxK totalCtxK in
        CtxResult.mk totalCtxK (Js.min vramCtxK totalCtxK) actualRamCtxK
          (Js.gtb actualRamCtxK 0)
    end.

(** ** Offload planner *)

Definition calcOffloadConfig (model : Model.t) (vram : Q)
    (systemRamGB : option Q) : Offload.t :=
  let reserveForKV := INFERENCE_OVERHEAD_GB in
  let availableForWeights := vram - reserveForKV in
  if Js.leb (Model.weight_gb model) availableForWeights then
    Offload.Feasible (Offload.mk (Model.weight_gb model) 0 0 0)
  else
    match systemRamGB with
    | None => Offload.Infeasible
    | Some ram =>
        let ramWeightGB := Model.weight_gb model - Js.max availableForWeights 0 in
        let offloadRatio := ramWeightGB / Model.weight_gb model in
        if Js.gtb offloadRatio MAX_OFFLOAD_RATIO || Js.gtb ramWeightGB ram then
          Offload.Infeasible
        else
          Offload.Feasible
            (Offload.mk (Js.max availableForWeights 0) ramWeightGB offloadRatio
               (Js.round (offloadRatio * default 0 (Model.layers model))))
    end.

Definition calcOffloadPenalty (offloadRatio : Q) (bandwidth : option Q) : Penalty.t :=
  if Js.leb offloadRatio 0 then Penalty.mk 0 1.0
  else
    let penalty := 0.15 + offloadRatio * 0.70 in
    let penalty :=
      match bandwidth with
      | Some b =>
          if Js.ltb b 400 then penalty * 0.80
          else if Js.ltb b 700 then penalty * 0.90
          else penalty
      | None => penalty
      end in
    let penalty := Js.min penalty 0.50 in
    Penalty.mk (Js.round (penalty * 100)) (1 - penalty).

(** ** Quality tiers and score comparison *)

Module Tier.
Record t : Type := mk { label : string; cls : string }.
End Tier.

Definition qualityTier (score : Q) : Tier.t :=
  if Js.geb score 83 then Tier.mk "Excellent" "tier-excellent"
  else if Js.geb score 75 then Tier.mk "Great" "tier-great"
  else if Js.geb score 67 then Tier.mk "Good" "tier-good"
  else if Js.geb score 55 then Tier.mk "Fair" "tier-fair"
  else Tier.mk "Basic" "tier-basic".

Definition codingQualityTier (score : option Q) : Tier.t :=
  match score with
  | None => Tier.mk "N/A" "tier-na"
  | Some score =>
      if Js.geb score 30 then Tier.mk "Excellent" "tier-excellent"
      else if Js.geb score 22 then Tier.mk "Great" "tier-great"
      else if Js.geb score 15 then Tier.mk "Good" "tier-good"
      else if Js.geb score 8 then Tier.mk "Fair" "tier-fair"
      else Tier.mk "Basic" "tier-basic"
  end.

Definition compareScores (a b : option Q) : Q :=
  match a, b with
  | None, None => 0
  | None, Some _ => 1
  | Some _, None => -1
  | Some a, Some b => b - a
  end.

(** ** Enriched entries *)

(** The [offloadInfo] object attached to an entry that runs with part of
    its weights in system RAM. *)
Module OffloadInfo.
Record t : Type := mk {
  type : string;
  gpuWeightGB : Q;
  ramWeightGB : Q;
  offloadRatio : Q;
  estimatedLayers : Q;
  penaltyPercent : Q;
  speedMultiplier : Q
}.
End OffloadInfo.

(** The [ctxInfo] object: the VRAM / system-RAM split of the context. *)
Module CtxInfo.
Record t : Type := mk { vramCtxK : Q; ramCtxK : Q }.
End CtxInfo.

(** [{ ...m, maxCtxK, fitsAtAll, ... }]: the model record, carried whole in
    [model], and the derived fields. *)
Module Entry.
Record t : Type := mk {
  model : Model.t;
  maxCtxK : Q;
  fitsAtAll : bool;
  meetsMinCtx : bool;
  meetsMinSpeed : bool;
  meetsFeatures : bool;
  modelSupportsCtx : bool;
  tokPerSec : option Q;
  tier : Tier.t;
  offloadInfo : option OffloadInfo.t;
  ctxInfo : option CtxInfo.t
}.
End Entry.

Module Buckets.
Record t : Type := mk {
  fits : list Entry.t;
  tight : list Entry.t;
  noFit : list Entry.t
}.
End Buckets.

(** ** Bucketing engine *)

Section Bucketing.
Variables (vram : Q) (bandwidth minContextK minTokPerSec : option Q).
Variables (requiredFeatures : list string) (sortBy : string).
Variable systemRamGB : option Q.

(** The callback of [allModels.map(...)]. *)
Definition enrich (m : Model.t) : Entry.t :=
  let effectiveMinCtx := minContextK in
  let totalAtMinCtx := Model.weight_gb m + Model.kv_per_1k_gb m in
  let fitsInVram := Js.geb vram totalAtMinCtx in
  let '(offloadInfo, weightsAvailable) :=
    if negb fitsInVram && Js.nonnull systemRamGB then
      match calcOffloadConfig m vram systemRamGB with
      | Offload.Feasible offload =>
          if Js.gtb (Offload.offloadRatio offload) 0 then
            let penalty := calcOffloadPenalty (Offload.offloadRatio offload) bandwidth in
            (Some (OffloadInfo.mk "weights"
                     (Offload.gpuWeightGB offload)
                     (Offload.ramWeightGB offload)
                     (Offload.offloadRatio offload)
                     (Offload.estimatedLayers offload)
                     (Penalty.penaltyPercent penalty)
                     (Penalty.speedMultiplier penalty)),
             true)
          else (@None OffloadInfo.t, fitsInVram)
      | Offload.Infeasible => (None, fitsInVram)
      end
    else (None, fitsInVram) in
  let '(maxCtxK, ctxInfo) :=
    if weightsAvailable && negb (Js.nonnull offloadInfo) && Js.nonnull systemRamGB then
      let extended := calcMaxContextWithOffload m vram systemRamGB in
      (CtxResult.maxCtxK extended,
       if CtxResult.usingSystemRam extended
       then Some (CtxInfo.mk (CtxResult.vramCtxK extended) (CtxResult.ramCtxK extended))
       else None)
    else
      match offloadInfo with
      | Some info =>
          let vramForKv :=
            Js.max (vram - OffloadInfo.gpuWeightGB info - INFERENCE_OVERHEAD_GB) 0 in
          (if Js.gtb (Model.kv_per_1k_gb m) 0
           then Js.min (Js.floor (vramForKv / Model.kv_per_1k_gb m)) (Model.max_context_k m)
           else Model.max_context_k m,
           None)
      | None => (calcMaxContext m vram, None)
      end in
  let modelSupportsCtx :=
    match effectiveMinCtx with
    | Some c => Js.geb (Model.max_context_k m) c
    | None => true
    end in
  let meetsMinCtx :=
    match effectiveMinCtx with
    | Some c => Js.geb maxCtxK c
    | None => true
    end in
  let tokPerSec := calcTokPerSec m bandwidth in
  let tokPerSec :=
    match tokPerSec, offloadInfo with
    | Some t, Some info => Some (Js.round (t * OffloadInfo.speedMultiplier info))
    | _, _ => tokPerSec
    end in
  let meetsMinSpeed :=
    match minTokPerSec, tokPerSec with
    | Some s, Some t => Js.geb t s
    | _, _ => true
    end in
  let modelFeatures := default [] (Model.features m) in
  let meetsFeatures :=
    if (0 <? length requiredFeatures)%nat
    then forallb (fun f => bool_decide (f ∈ modelFeatures)) requiredFeatures
    else true in
  let tier :=
    if bool_decide (sortBy = "swe-bench")
    then codingQualityTier (Model.swe_bench_score m)
    else qualityTier (Model.mmlu_score m) in
  Entry.mk m maxCtxK weightsAvailable meetsMinCtx meetsMinSpeed meetsFeatures
    modelSupportsCtx tokPerSec tier offloadInfo ctxInfo.

(** One turn of the [for (const e of entries)] loop; [push] appends. *)
Definition place (b : Buckets.t) (e : Entry.t) : Buckets.t :=
  let '(Buckets.mk fits tight noFit) := b in
  if negb (Entry.fitsAtAll e) || negb (Entry.modelSupportsCtx e) then
    Buckets.mk fits tight (noFit ++ [e])
  else if Js.nonnull (Entry.offloadInfo e) then
    Buckets.mk fits (tight ++ [e]) noFit
  else if negb (Entry.meetsMinCtx e) || negb (Entry.meetsMinSpeed e)
          || negb (Entry.meetsFeatures e) then
    Buckets.mk fits (tight ++ [e]) noFit
  else if Js.ltb (Entry.maxCtxK e) TIGHT_FIT_CONTEXT_K then
    Buckets.mk fits (tight ++ [e]) noFit
  else
    Buckets.mk (fits ++ [e]) tight noFit.

(** The comparators handed to [sort]. *)
Definition sweCtxOrder (a b : Entry.t) : Q :=
  Js.or_else
    (compareScores (Model.swe_bench_score (Entry.model a))
                   (Model.swe_bench_score (Entry.model b)))
    (Entry.maxCtxK b - Entry.maxCtxK a).
Definition sweWeightOrder (a b : Entry.t) : Q :=
  Js.or_else
    (compareScores (Model.swe_bench_score (Entry.model a))
                   (Model.swe_bench_score (Entry.model b)))
    (Model.weight_gb (Entry.model b) - Model.weight_gb (Entry.model a)).
Definition mmluCtxOrder (a b : Entry.t) : Q :=
  Js.or_else
    (Model.mmlu_score (Entry.model b) - Model.mmlu_score (Entry.model a))
    (Entry.maxCtxK b - Entry.maxCtxK a).
Definition mmluWeightOrder (a b : Entry.t) : Q :=
  Js.or_else
    (Model.mmlu_score (Entry.model b) - Model.mmlu_score (Entry.model a))
    (Model.weight_gb (Entry.model b) - Model.weight_gb (Entry.model a)).

Definition bucketModels (allModels : list Model.t) : Buckets.t :=
  let entries := map enrich allModels in
  let '(Buckets.mk fits tight noFit) :=
    fold_left place entries (Buckets.mk [] [] []) in
  if bool_decide (sortBy = "swe-bench") then
    Buckets.mk (Js.sort sweCtxOrder fits) (Js.sort sweCtxOrder tight)
      (Js.sort sweWeightOrder noFit)
  else
    Buckets.mk (Js.sort mmluCtxOrder fits) (Js.sort mmluCtxOrder tight)
      (Js.sort mmluWeightOrder noFit).
End Bucketing.

(** ** Variant grouper *)

Module Group.
Record t : Type := mk {
  name : string;
  params_b : Q;
  tier : Tier.t;
  mmlu_score : Q;
  swe_bench_score : option Q;
  features : list string;
  variants : list Entry.t
}.

(** [g.variants.push(m)]. *)
Definition push (m : Entry.t) (g : t) : t :=
  mk (name g) (params_b g) (tier g) (mmlu_score g) (swe_bench_score g)
     (features g) (variants g ++ [m]).

(** [g.variants.sort(cmp)], in place. *)
Definition sortVariants (cmp : Entry.t -> Entry.t -> Q) (g : t) : t :=
  mk (name g) (params_b g) (tier g) (mmlu_score g) (swe_bench_score g)
     (features g) (Js.sort cmp (variants g)).
End Group.

(** The group object created for the first entry of a name. *)
Definition newGroup (m : Entry.t) : Group.t :=
  Group.mk (Model.name (Entry.model m))
           (Model.params_b (Entry.model m))
           (Entry.tier m)
           (Model.mmlu_score (Entry.model m))
           (Model.swe_bench_score (Entry.model m))
           (default [] (Model.features (Entry.model m)))
           [m].

(** The loop state: the array [groups], and the Map [seen].  A value of
    [seen] is a reference to a group object that also sits in [groups];
    it is kept as the position of that object in [groups], so a [push]
    through [seen.get(name)] is an update of [groups] at that position. *)
Definition groupStep (st : list Group.t * gmap string nat) (m : Entry.t)
    : list Group.t * gmap string nat :=
  let '(groups, seen) := st in
  match seen !! Model.name (Entry.model m) with
  | Some i => (alter (Group.push m) i groups, seen)
  | None =>
      (groups ++ [newGroup m],
       <[Model.name (Entry.model m) := length groups]> seen)
  end.

Definition byWeight (a b : Entry.t) : Q :=
  Model.weight_gb (Entry.model a) - Model.weight_gb (Entry.model b).

Definition groupVariants (models : list Entry.t) : list Group.t :=
  let '(groups, _) := fold_left groupStep models ([], ∅) in
  map (Group.sortVariants byWeight) groups.

(** ** Fixtures of the repository's test-suite *)

Definition smallModel : Model.t :=
  Model.mk "test-small" "Test Small" 1.24 "Q8_0" 1.32 0.031 128 None 49.3
    None None None.
Definition mediumModel : Model.t :=
  Model.mk "test-medium" "Test Medium" 14 "Q4_K_M" 8.99 0.25 128 None 79.9
    None None None.
Definition largeModel : Model.t :=
  Model.mk "test-large" "Test Large" 72 "Q4_K_M" 43.5 1.25 128 None 86.1
    None None None.

(** ** The estimators in binary64 *)

(** The three functions whose specification is a formula on the value
    ([calcMaxContext], [calcTokPerSec], [calcMultiGpuResources]) are
    embedded a second time over the binary64 numbers of the language:
    every [+], [-], [*], [/] rounds to nearest-even, the literals [0.85],
    [0.75], [0.70] and [1.0] are the doubles JavaScript reads them as, and
    NaN, the infinities and the two zeros are values like any other. *)
Module B64.
Local Open Scope float_scope.

Module Js.

(** [x <= y], [x < y], [x === y] on numbers (all false on NaN). *)
Definition leb (x y : float) : bool := PrimFloat.leb x y.
Definition ltb (x y : float) : bool := PrimFloat.ltb x y.
Definition eqb (x y : float) : bool := PrimFloat.eqb x y.

(** [Number.isNaN], [Number.isFinite]. *)
Definition isNaN (x : float) : bool := negb (PrimFloat.eqb x x).
Definition isFinite (x : float) : bool :=
  match Prim2SF x with
  | S754_zero _ | S754_finite _ _ _ => true
  | _ => false
  end.
Definition notNaN (x : float) : Prop := Prim2SF x <> S754_nan.

(** The double of an integer (exact below [2^53]). *)
Definition of_Z (z : Z) : float :=
  match z with
  | Z0 => 0
  | Zpos _ => of_uint63 (Uint63.of_Z z)
  | Zneg p => - of_uint63 (Uint63.of_Z (Zpos p))
  end.

(** [Math.floor]: a double [m * 2^e] with [e >= 0] is an integer already;
    otherwise the integer [floor(m / 2^-e)] is below [2^53] and exact.
    NaN, the infinities and the zeros are returned unchanged. *)
Definition floor (x : float) : float :=
  match Prim2SF x with
  | S754_finite s m e =>
      if (0 <=? e)%Z then x
      else of_Z (Z.shiftr (if s then Zneg m else Zpos m) (- e))
  | _ => x
  end.

(** [Math.round]: the integer [floor(x + 1/2)], computed exactly on the
    mantissa (ties go up); a result of zero keeps the sign of [x]. *)
Definition round (x : float) : float :=
  match Prim2SF x with
  | S754_finite s m e =>
      if (0 <=? e)%Z then x
      else
        let n := Z.shiftr (2 * (if s then Zneg m else Zpos m) + 2 ^ (- e))
                          (- e + 1) in
        if (n =? 0)%Z then (if s then -0 else 0) else of_Z n
  | _ => x
  end.

(** [Math.min] of two numbers: NaN if either is NaN, and [-0] below [+0]. *)
Definition min (x y : float) : float :=
  if isNaN x || isNaN y then nan
  else if ltb x y then x
  else if ltb y x then y
  else match Prim2SF x with S754_zero true => x | _ => y end.

End Js.

Module Model.
Record t : Type := mk {
  id : string;
  name : string;
  params_b : float;
  quantization : string;
  weight_gb : float;
  kv_per_1k_gb : float;
  max_context_k : float;
  layers : option float;
  mmlu_score : float;
  swe_bench_score : option float;
  features : option (list string);
  notes : option string
}.
End Model.

Module Resources.
Record t : Type := mk { vram : float; bandwidth : option float }.
End Resources.

Definition INFERENCE_OVERHEAD_GB : float := 1.0.

Definition calcMultiGpuResources (vram : float) (bandwidth : option float)
    (quantity : option float) : Resources.t :=
  match quantity with
  | None => Resources.mk vram bandwidth
  | Some q =>
      if Js.eqb q 1 then Resources.mk vram bandwidth
      else
        let totalVram := vram * q in
        match bandwidth with
        | None => Resources.mk totalVram None
        | Some b =>
            let efficiency :=
              if Js.eqb q 2 then 0.85 else if Js.eqb q 3 then 0.75 else 0.70 in
            let effectiveBandwidth := Js.round (b * q * efficiency) in
            Resources.mk totalVram (Some effectiveBandwidth)
        end
  end.

Definition calcMaxContext (model : Model.t) (userVram : float) : float :=
  let availableForKv := userVram - Model.weight_gb model in
  if Js.leb availableForKv 0 then 0
  else if Js.leb (Model.kv_per_1k_gb model) 0 then Model.max_context_k model
  else
    let maxTokensK := availableForKv / Model.kv_per_1k_gb model in
    Js.min (Js.floor maxTokensK) (Model.max_context_k model).

Definition calcTokPerSec (model : Model.t) (bandwidth : option float) : option float :=
  match bandwidth with
  | None => None
  | Some b => Some (Js.round (b / (Model.weight_gb model + INFERENCE_OVERHEAD_GB)))
  end.

(** The fixture of the test-suite, as doubles. *)
Definition mediumModel : Model.t :=
  Model.mk "test-medium" "Test Medium" 14 "Q4_K_M" 8.99 0.25 128 None 79.9
    None None None.

End B64.

(** ** Vocabulary of the properties *)

(** The array an entry is pushed on, read off the chain of tests. *)
Inductive bucket : Type := InFits | InTight | InNoFit.

Definition bucketOf (e : Entry.t) : bucket :=
  if negb (Entry.fitsAtAll e) || negb (Entry.modelSupportsCtx e) then InNoFit
  else if Js.nonnull (Entry.offloadInfo e) then InTight
  else if negb (Entry.meetsMinCtx e) || negb (Entry.meetsMinSpeed e)
          || negb (Entry.meetsFeatures e) then InTight
  else if Js.ltb (Entry.maxCtxK e) TIGHT_FIT_CONTEXT_K then InTight
  else InFits.

Definition goes (k : bucket) (e : Entry.t) : bool :=
  match bucketOf e, k with
  | InFits, InFits | InTight, InTight | InNoFit, InNoFit => true
  | _, _ => false
  end.

(** The offload plan of a model is active: calcOffloadConfig finds it
    feasible, with a nonzero offload ratio. *)
Definition offloadPlanActive (m : Model.t) (vram : Q) (systemRamGB : option Q) : Prop :=
  exists p, calcOffloadConfig m vram systemRamGB = Offload.Feasible p /\
            0 < Offload.offloadRatio p.

Definition entryName (e : Entry.t) : string := Model.name (Entry.model e).

(** The names of a list in order of first appearance, each once. *)
Fixpoint firstSeen (names : list string) : list string :=
  match names with
  | [] => []
  | n :: rest => n :: filter (fun x => x <> n) (firstSeen rest)
  end.

(** The entries of a list that carry a given name, in their order. *)
Definition variantsOf (n : string) (l : list Entry.t) : list Entry.t :=
  filter (fun e => entryName e = n) l.

(** The group's shared metadata are those of entry [e]. *)
Definition metadataFrom (g : Group.t) (e : Entry.t) : Prop :=
  Group.name g = Model.name (Entry.model e) /\
  Group.params_b g = Model.params_b (Entry.model e) /\
  Group.tier g = Entry.tier e /\
  Group.mmlu_score g = Model.mmlu_score (Entry.model e) /\
  Group.swe_bench_score g = Model.swe_bench_score (Entry.model e) /\
  Group.features g = default [] (Model.features (Entry.model e)).

(** The loop invariant of groupVariants after the entries [l]:
    [groups] lists one group per name in order of first appearance, [seen]
    sends each of these names to the position of its group, and every
    group holds, in input order, the entries of its name, with the
    metadata of the first of them. *)
Definition groupInv (l : list Entry.t) (groups : list Group.t)
    (seen : gmap string nat) : Prop :=
  map Group.name groups = firstSeen (map entryName l) /\
  (forall n i, seen !! n = Some i <->
               exists g, groups !! i = Some g /\ Group.name g = n) /\
  (forall i g, groups !! i = Some g ->
     Group.variants g = variantsOf (Group.name g) l /\
     exists e rest, Group.variants g = e :: rest /\ metadataFrom g e) /\
  concat (map Group.variants groups) ≡ₚ l.

(** ** The GPU picker (GpuInput.svelte) *)

(** [applyMultiGpu]: the effective [vram] and [bandwidth] bindings computed
    from the per-GPU base values and the GPU count. *)
Definition applyMultiGpu (baseVram baseBandwidth : option Q) (gpuQuantity : Q)
    : option Q * option Q :=
  match baseVram with
  | None => (None, None)
  | Some v =>
      let res := calcMultiGpuResources v baseBandwidth (Some gpuQuantity) in
      (Some (Resources.vram res), Resources.bandwidth res)
  end.

(** The count stored by [onQuantityChange]:
    [Math.max(1, Math.min(8, Math.floor(Number(gpuQuantity) || 1)))].
    The bound value of an emptied number input is null, and [Number(null)]
    is 0. *)
Definition clampQuantity (gpuQuantity : option Q) : Q :=
  Js.max 1 (Js.min 8 (Js.floor (Js.or_else (default 0 gpuQuantity) 1))).

(** [onQuantityChange]: the new count, then [applyMultiGpu]; the result is
    the stored count and the two bindings.  The analytics call and the
    state-change callback that follow touch none of them. *)
Definition onQuantityChange (baseVram baseBandwidth gpuQuantity : option Q)
    : Q * (option Q * option Q) :=
  let gpuQuantity := clampQuantity gpuQuantity in
  (gpuQuantity, applyMultiGpu baseVram baseBandwidth gpuQuantity).

(** ** Orders used to state the ranking *)

(** Rank of a tier label, from Basic (and N/A) up to Excellent. *)
Definition tierRank (t : Tier.t) : nat :=
  if decide (Tier.label t = "Excellent") then 4
  else if decide (Tier.label t = "Great") then 3
  else if decide (Tier.label t = "Good") then 2
  else if decide (Tier.label t = "Fair") then 1
  else 0.

(** [a] may stand before [b]: its first key is larger, or the first keys
    are equal and its second key is not smaller. *)
Definition lexDesc (k1 k2 : Entry.t -> Q) (a b : Entry.t) : Prop :=
  k1 b < k1 a \/ (k1 a == k1 b /\ k2 b <= k2 a).

(** The same with an optional first key, absent keys last. *)
Definition lexDescOpt (k1 : Entry.t -> option Q) (k2 : Entry.t -> Q)
    (a b : Entry.t) : Prop :=
  match k1 a, k1 b with
  | Some x, Some y => y < x \/ (x == y /\ k2 b <= k2 a)
  | Some _, None => True
  | None, Some _ => False
  | None, None => k2 b <= k2 a
  end.

Definition entryMmlu (e : Entry.t) : Q := Model.mmlu_score (Entry.model e).
Definition entrySwe (e : Entry.t) : option Q := Model.swe_bench_score (Entry.model e).
Definition entryWeight (e : Entry.t) : Q := Model.weight_gb (Entry.model e).

(** * Properties *)

(** Decide the [===] tests on numerals left in the goal. *)
Ltac eval_eqb :=
  repeat match goal with
  | |- context [Js.eqb ?a ?b] =>
      let v := eval vm_compute in (Js.eqb a b) in
      change (Js.eqb a b) with v
  end;
  cbv iota; cbn [Resources.vram Resources.bandwidth].

(** ** Facts on the arithmetic layer *)

Lemma leb_true (x y : Q) : Js.leb x y = true <-> x <= y.
Proof. apply Qle_bool_iff. Qed.

Lemma leb_false (x y : Q) : Js.leb x y = false <-> y < x.
Proof.
  unfold Js.leb. split; intros H.
  - apply Qnot_le_lt. intros Hle. apply Qle_bool_iff in Hle. congruence.
  - destruct (Qle_bool x y) eqn:E; [|reflexivity].
    apply Qle_bool_iff in E. lra.
Qed.

Lemma gtb_true (x y : Q) : Js.gtb x y = true <-> y < x.
Proof. unfold Js.gtb. rewrite negb_true_iff. apply leb_false. Qed.

Lemma gtb_false (x y : Q) : Js.gtb x y = false <-> x <= y.
Proof. unfold Js.gtb. rewrite negb_false_iff. apply leb_true. Qed.

Lemma ltb_true (x y : Q) : Js.ltb x y = true <-> x < y.
Proof. apply (gtb_true y x). Qed.

Lemma ltb_false (x y : Q) : Js.ltb x y = false <-> y <= x.
Proof. apply (gtb_false y x). Qed.

Lemma geb_true (x y : Q) : Js.geb x y = true <-> y <= x.
Proof. apply (leb_true y x). Qed.

Lemma geb_false (x y : Q) : Js.geb x y = false <-> x < y.
Proof. apply (leb_false y x). Qed.

Lemma min_le_r (x y : Q) : Js.min x y <= y.
Proof. apply Q.le_min_r. Qed.

Lemma min_left_zero (y : Q) : 0 <= y -> Js.min 0 y = 0.
Proof.
  intros H. unfold Js.min, Qmin, GenericMinMax.gmin.
  destruct (0 ?= y) eqn:E; try reflexivity.
  apply Qgt_alt in E. lra.
Qed.

Lemma round_mono (x y : Q) : x <= y -> Js.round x <= Js.round y.
Proof.
  intros H. unfold Js.round. rewrite <- Zle_Qle.
  apply Qfloor_resp_le. lra.
Qed.

Lemma round_nonneg (x : Q) : 0 <= x -> 0 <= Js.round x.
Proof.
  intros H. unfold Js.round.
  assert (Hz : (Qfloor 0 <= Qfloor (x + 0.5))%Z) by (apply Qfloor_resp_le; lra).
  change (Qfloor 0) with 0%Z in Hz.
  rewrite Zle_Qle in Hz. exact Hz.
Qed.

Lemma round_le_int (x : Q) (n : Z) : x <= inject_Z n -> Js.round x <= inject_Z n.
Proof.
  intros H. unfold Js.round. rewrite <- Zle_Qle.
  assert (Hlt : inject_Z (Qfloor (x + 0.5)) < inject_Z (n + 1)).
  { eapply Qle_lt_trans; [apply Qfloor_le|].
    rewrite inject_Z_plus. change (inject_Z 1) with 1. lra. }
  rewrite <- Zlt_Qlt in Hlt. lia.
Qed.

(** ** Facts on binary64 arithmetic *)

Section Rounding.
Variables prec emax : Z.

Lemma shr_1_nonneg (mrs : shr_record) :
  (0 <= shr_m mrs)%Z -> (0 <= shr_m (shr_1 mrs))%Z.
Proof.
  destruct mrs as [m r s]. destruct m as [|[p|p|]|[p|p|]]; cbn; lia.
Qed.

Lemma iter_shr_1_nonneg (p : positive) (mrs : shr_record) :
  (0 <= shr_m mrs)%Z -> (0 <= shr_m (SpecFloat.iter_pos shr_1 p mrs))%Z.
Proof.
  revert mrs. induction p as [p IH|p IH|]; intros mrs H; cbn.
  - apply IH, IH, shr_1_nonneg, H.
  - apply IH, IH, H.
  - apply shr_1_nonneg, H.
Qed.

Lemma shr_fexp_nonneg (m e : Z) (l : location) :
  (0 <= m)%Z -> (0 <= shr_m (fst (shr_fexp prec emax m e l)))%Z.
Proof.
  intros H. unfold shr_fexp, shr.
  assert (H0 : (0 <= shr_m (shr_record_of_loc m l))%Z)
    by (destruct l as [|[]]; exact H).
  destruct (_ - e)%Z; cbn [fst]; [exact H0| |exact H0].
  apply iter_shr_1_nonneg, H0.
Qed.

Lemma round_nearest_even_nonneg (m : Z) (l : location) :
  (0 <= m)%Z -> (0 <= round_nearest_even m l)%Z.
Proof.
  intros H. destruct l as [|[]]; cbn; try destruct (Z.even m); lia.
Qed.

(** Rounding a non-negative mantissa never produces NaN. *)
Lemma binary_round_aux_not_nan (sx : bool) (mx ex : Z) (lx : location) :
  (0 <= mx)%Z -> binary_round_aux prec emax sx mx ex lx <> S754_nan.
Proof.
  intros H. unfold binary_round_aux.
  pose proof (shr_fexp_nonneg mx ex lx H) as H1.
  destruct (shr_fexp prec emax mx ex lx) as [mrs' e']. cbn [fst] in H1.
  pose proof (shr_fexp_nonneg _ e' loc_Exact
                (round_nearest_even_nonneg _ (loc_of_shr_record mrs') H1)) as H2.
  destruct (shr_fexp prec emax _ e' loc_Exact) as [mrs'' e'']. cbn [fst] in H2.
  destruct (shr_m mrs''); [discriminate| |lia].
  destruct (_ <=? _)%Z; discriminate.
Qed.

Lemma binary_normalize_not_nan (m e : Z) (szero : bool) :
  binary_normalize prec emax m e szero <> S754_nan.
Proof.
  destruct m; cbn; [discriminate| |]; unfold binary_round;
    destruct (shl_align _ _ _); apply binary_round_aux_not_nan; lia.
Qed.

(** A finite number minus a number is a number. *)
Lemma SFsub_not_nan (x y : spec_float) :
  match x with S754_zero _ | S754_finite _ _ _ => True | _ => False end ->
  y <> S754_nan -> SFsub prec emax x y <> S754_nan.
Proof.
  destruct x as [sx|sx| |sx mx ex], y as [sy|sy| |sy my ey]; cbn;
    try tauto; try discriminate.
  - destruct sx, sy; discriminate.
  - intros _ _. apply binary_normalize_not_nan.
Qed.

(** A number divided by a finite non-zero number is a number. *)
Lemma SFdiv_not_nan (x : spec_float) (sy : bool) (my : positive) (ey : Z) :
  x <> S754_nan -> SFdiv prec emax x (S754_finite sy my ey) <> S754_nan.
Proof.
  destruct x as [sx|sx| |sx mx ex]; cbn; try tauto; try discriminate.
  intros _. unfold SFdiv_core_binary.
  set (s := (_ - _ - _)%Z).
  set (m' := match s with Z0 => Z.pos mx | Z.pos _ => Z.shiftl (Z.pos mx) s
             | Z.neg _ => 0%Z end).
  assert (Hm : (0 <= m')%Z).
  { unfold m'. destruct s; try lia. apply Z.shiftl_nonneg. lia. }
  pose proof (Z.div_pos m' (Z.pos my) Hm ltac:(lia)) as Hq.
  unfold Z.div in Hq.
  destruct (Z.div_eucl m' (Z.pos my)) as [q r]. cbn [fst] in Hq.
  apply binary_round_aux_not_nan, Hq.
Qed.

End Rounding.

Lemma SFcompare_refl (x : spec_float) :
  x <> S754_nan -> SFcompare x x = Some Eq.
Proof.
  destruct x as [s|s| |s m e]; cbn; try tauto; intros _.
  - destruct s; reflexivity.
  - rewrite Z.compare_refl.
    change (Pos.compare_cont Eq m m) with (Pos.compare m m).
    rewrite Pos.compare_refl. destruct s; reflexivity.
Qed.

Lemma ltb64_leb (x y : float) : B64.Js.ltb x y = true -> B64.Js.leb x y = true.
Proof.
  unfold B64.Js.ltb, B64.Js.leb.
  rewrite FloatAxioms.ltb_spec, FloatAxioms.leb_spec. unfold SFltb, SFleb.
  destruct (SFcompare _ _) as [[]|]; congruence.
Qed.

Lemma ltb64_notNaN (x y : float) :
  B64.Js.ltb x y = true -> B64.Js.notNaN x /\ B64.Js.notNaN y.
Proof.
  unfold B64.Js.ltb, B64.Js.notNaN. rewrite FloatAxioms.ltb_spec. unfold SFltb.
  destruct (Prim2SF x), (Prim2SF y); cbn; try discriminate;
    split; discriminate.
Qed.

Lemma leb64_refl (x : float) : B64.Js.notNaN x -> B64.Js.leb x x = true.
Proof.
  intros H. unfold B64.Js.leb. rewrite FloatAxioms.leb_spec. unfold SFleb.
  now rewrite SFcompare_refl.
Qed.

Lemma isNaN_false (x : float) : B64.Js.notNaN x -> B64.Js.isNaN x = false.
Proof.
  intros H. unfold B64.Js.isNaN. rewrite FloatAxioms.eqb_spec. unfold SFeqb.
  now rewrite SFcompare_refl.
Qed.

Lemma Prim2SF_zero : Prim2SF 0%float = S754_zero false.
Proof. reflexivity. Qed.

(** [0 < x] excludes [x <= 0]. *)
Lemma pos64_not_le (x : float) :
  B64.Js.ltb 0 x = true -> B64.Js.leb x 0 = false.
Proof.
  unfold B64.Js.ltb, B64.Js.leb.
  rewrite FloatAxioms.ltb_spec, FloatAxioms.leb_spec, Prim2SF_zero.
  unfold SFltb, SFleb.
  destruct (Prim2SF x) as [s|s| |s m e]; cbn; try discriminate;
    destruct s; cbn; congruence.
Qed.

(** A number is [<= 0] or [> 0]. *)
Lemma le64_or_pos (x : float) :
  B64.Js.notNaN x -> B64.Js.leb x 0 = true \/ B64.Js.ltb 0 x = true.
Proof.
  unfold B64.Js.ltb, B64.Js.leb, B64.Js.notNaN.
  rewrite FloatAxioms.ltb_spec, FloatAxioms.leb_spec, Prim2SF_zero.
  unfold SFltb, SFleb.
  destruct (Prim2SF x) as [s|s| |s m e]; cbn; try tauto;
    destruct s; cbn; tauto.
Qed.

(** A finite number that is not [<= 0] has a mantissa. *)
Lemma pos64_finite (x : float) :
  B64.Js.isFinite x = true -> B64.Js.leb x 0 = false ->
  exists s m e, Prim2SF x = S754_finite s m e.
Proof.
  unfold B64.Js.isFinite, B64.Js.leb.
  rewrite FloatAxioms.leb_spec, Prim2SF_zero. unfold SFleb.
  destruct (Prim2SF x) as [s|s| |s m e]; cbn; try discriminate; eauto.
Qed.

Lemma sub64_notNaN (x y : float) :
  B64.Js.isFinite x = true -> B64.Js.notNaN y -> B64.Js.notNaN (x - y).
Proof.
  unfold B64.Js.isFinite, B64.Js.notNaN. intros Hx Hy.
  rewrite FloatAxioms.sub_spec.
  apply SFsub_not_nan; [|exact Hy].
  destruct (Prim2SF x); try discriminate; exact I.
Qed.

Lemma div64_notNaN (x y : float) :
  B64.Js.notNaN x -> (exists s m e, Prim2SF y = S754_finite s m e) ->
  B64.Js.notNaN (x / y).
Proof.
  unfold B64.Js.notNaN. intros Hx (s & m & e & Hy).
  rewrite FloatAxioms.div_spec, Hy.
  apply SFdiv_not_nan, Hx.
Qed.

Lemma of_Z_notNaN (z : Z) : B64.Js.notNaN (B64.Js.of_Z z).
Proof.
  unfold B64.Js.notNaN. destruct z; cbn [B64.Js.of_Z].
  - rewrite Prim2SF_zero. discriminate.
  - rewrite FloatAxioms.of_uint63_spec. apply binary_normalize_not_nan.
  - rewrite FloatAxioms.opp_spec, FloatAxioms.of_uint63_spec.
    pose proof (binary_normalize_not_nan prec emax
                  (Uint63.to_Z (Uint63.of_Z (Z.pos p))) 0 false) as H.
    destruct (binary_normalize _ _ _ _ _); cbn; congruence.
Qed.

Lemma floor64_notNaN (x : float) :
  B64.Js.notNaN x -> B64.Js.notNaN (B64.Js.floor x).
Proof.
  intros H. unfold B64.Js.floor.
  destruct (Prim2SF x) as [s|s| |s m e] eqn:E; try exact H.
  destruct (0 <=? e)%Z; [exact H|apply of_Z_notNaN].
Qed.

(** [Math.min] never exceeds a positive second argument. *)
Lemma min64_le_r (x y : float) :
  B64.Js.notNaN x -> B64.Js.ltb 0 y = true ->
  B64.Js.leb (B64.Js.min x y) y = true.
Proof.
  intros Hx Hy. destruct (ltb64_notNaN _ _ Hy) as [_ Hny].
  unfold B64.Js.min. rewrite (isNaN_false x Hx), (isNaN_false y Hny). cbn [orb].
  destruct (B64.Js.ltb x y) eqn:Hxy; [apply ltb64_leb, Hxy|].
  destruct (B64.Js.ltb y x); [apply leb64_refl, Hny|].
  destruct (Prim2SF x) as [[]|s| |s m e] eqn:E; try (apply leb64_refl, Hny).
  revert Hy. unfold B64.Js.ltb, B64.Js.leb.
  rewrite FloatAxioms.ltb_spec, FloatAxioms.leb_spec, E, Prim2SF_zero.
  unfold SFltb, SFleb.
  destruct (Prim2SF y) as [s|s| |s m e]; cbn; try discriminate;
    destruct s; cbn; congruence.
Qed.

(** [Math.floor], [Math.round] and [Math.min] at their corner cases. *)
Example floor64_values :
  B64.Js.floor 60.04 = 60%float /\ B64.Js.floor 3.9999999999999991 = 3%float /\
  B64.Js.floor (-0.2) = (-1)%float /\ B64.Js.floor (-7.5) = (-8)%float /\
  B64.Js.floor 5e-324 = 0%float /\ B64.Js.floor infinity = infinity.
Proof. vm_compute. repeat split. Qed.

Example round64_values :
  B64.Js.round 2.5 = 3%float /\ B64.Js.round (-2.5) = (-2)%float /\
  B64.Js.round 955.49999999999989 = 955%float /\
  B64.Js.round 0.49999999999999994 = 0%float /\
  B64.Js.round 4503599627370497 = 4503599627370497%float /\
  Prim2SF (B64.Js.round (-0.2)) = S754_zero true.
Proof. vm_compute. repeat split. Qed.

Example min64_values :
  Prim2SF (B64.Js.min 0 (-0)) = S754_zero true /\
  Prim2SF (B64.Js.min (-0) 0) = S754_zero true /\
  B64.Js.isNaN (B64.Js.min 3 nan) = true /\
  B64.Js.min 3 neg_infinity = neg_infinity /\
  B64.Js.min 60 128 = 60%float.
Proof. vm_compute. repeat split. Qed.

(** ** Context estimator *)

(** C1.  In the binary64 arithmetic of the code, for a model with
    [weight_gb > 0], [max_context_k > 0] and [kv_per_1k_gb >= 0], and any
    VRAM: calcMaxContext is 0 when the weights leave no room
    ([vram - weight_gb <= 0]); it is exactly [max_context_k] when there is
    room and the KV cost is not positive; otherwise it is
    [min(floor((vram - weight_gb) / kv_per_1k_gb), max_context_k)], every
    operation being the rounded one.  For a finite VRAM and a finite KV
    cost (NaN and the infinities are no memory sizes) these cases are
    exhaustive and the result never exceeds [max_context_k].  A record with
    [weight_gb = 8.99], [kv_per_1k_gb = 0.25], [max_context_k = 128] gets
    60 at 24 GB. *)
Theorem calcMaxContext_cases (m : B64.Model.t) (vram : float)
    (Hw : B64.Js.ltb 0 (B64.Model.weight_gb m) = true)
    (Hc : B64.Js.ltb 0 (B64.Model.max_context_k m) = true)
    (Hk : B64.Js.leb 0 (B64.Model.kv_per_1k_gb m) = true) :
  (B64.Js.leb (vram - B64.Model.weight_gb m) 0 = true ->
     B64.calcMaxContext m vram = 0%float) /\
  (B64.Js.ltb 0 (vram - B64.Model.weight_gb m) = true ->
   B64.Js.leb (B64.Model.kv_per_1k_gb m) 0 = true ->
     B64.calcMaxContext m vram = B64.Model.max_context_k m) /\
  (B64.Js.ltb 0 (vram - B64.Model.weight_gb m) = true ->
   B64.Js.ltb 0 (B64.Model.kv_per_1k_gb m) = true ->
     B64.calcMaxContext m vram =
       B64.Js.min
         (B64.Js.floor ((vram - B64.Model.weight_gb m) / B64.Model.kv_per_1k_gb m))
         (B64.Model.max_context_k m)) /\
  (B64.Js.isFinite vram = true ->
   B64.Js.isFinite (B64.Model.kv_per_1k_gb m) = true ->
     (B64.Js.leb (vram - B64.Model.weight_gb m) 0 = true \/
      B64.Js.ltb 0 (vram - B64.Model.weight_gb m) = true) /\
     (B64.Js.leb (B64.Model.kv_per_1k_gb m) 0 = true \/
      B64.Js.ltb 0 (B64.Model.kv_per_1k_gb m) = true) /\
     B64.Js.leb (B64.calcMaxContext m vram) (B64.Model.max_context_k m) = true) /\
  (forall id name params quant layers mmlu swe feats notes,
     B64.calcMaxContext
       (B64.Model.mk id name params quant 8.99 0.25 128 layers mmlu swe feats notes)
       24 = 60%float).
Proof.
  destruct (ltb64_notNaN _ _ Hw) as [_ Hnw].
  destruct (ltb64_notNaN _ _ Hc) as [_ Hnc].
  unfold B64.calcMaxContext.
  split; [|split; [|split; [|split]]].
  - intros H. now rewrite H.
  - intros H1 H2. now rewrite (pos64_not_le _ H1), H2.
  - intros H1 H2. now rewrite (pos64_not_le _ H1), (pos64_not_le _ H2).
  - intros Hvram Hkv.
    pose proof (sub64_notNaN vram _ Hvram Hnw) as Hna.
    split; [apply le64_or_pos, Hna|]. split.
    + apply le64_or_pos. unfold B64.Js.notNaN. revert Hkv.
      unfold B64.Js.isFinite. destruct (Prim2SF _); discriminate.
    + destruct (B64.Js.leb (vram - B64.Model.weight_gb m) 0);
        [apply ltb64_leb, Hc|].
      destruct (B64.Js.leb (B64.Model.kv_per_1k_gb m) 0) eqn:Hk0;
        [apply leb64_refl, Hnc|].
      apply min64_le_r; [|exact Hc].
      apply floor64_notNaN, div64_notNaN; [exact Hna|].
      apply pos64_finite; assumption.
  - intros. vm_compute. reflexivity.
Qed.

Lemma calcMaxContext_cases_witness :
  B64.calcMaxContext B64.mediumModel 24 = 60%float /\
  B64.Js.leb (B64.calcMaxContext B64.mediumModel 24)
             (B64.Model.max_context_k B64.mediumModel) = true.
Proof.
  pose proof (calcMaxContext_cases B64.mediumModel 24
                eq_refl eq_refl eq_refl) as H.
  split.
  - rewrite (proj1 (proj2 (proj2 H)) eq_refl eq_refl). reflexivity.
  - exact (proj2 (proj2 (proj1 (proj2 (proj2 (proj2 H))) eq_refl eq_refl))).
Defined.

(** Where the rounded quotient parts from the exact one: [(2 - 1.6) / 0.1]
    is [3.9999999999999991] in binary64, so 2 GB of VRAM give a model with
    [weight_gb = 1.6] and [kv_per_1k_gb = 0.1] three thousand tokens. *)
Example calcMaxContext_rounded_quotient :
  forall id name params quant layers mmlu swe feats notes,
    B64.calcMaxContext
      (B64.Model.mk id name params quant 1.6 0.1 128 layers mmlu swe feats notes)
      2 = 3%float.
Proof. intros. vm_compute. reflexivity. Qed.

(** C2.  With no system RAM ([systemRamGB] null) calcMaxContextWithOffload
    degrades to calcMaxContext: same context, no RAM share, and
    [usingSystemRam] false, for every model and VRAM.  A record with
    [weight_gb = 8.99], [kv_per_1k_gb = 0.25], [max_context_k = 128] gets
    12 at 12 GB. *)
Theorem calcMaxContextWithOffload_null (m : Model.t) (vram : Q) :
  CtxResult.maxCtxK (calcMaxContextWithOffload m vram None) = calcMaxContext m vram /\
  CtxResult.ramCtxK (calcMaxContextWithOffload m vram None) = 0 /\
  CtxResult.usingSystemRam (calcMaxContextWithOffload m vram None) = false /\
  (forall id name params quant layers mmlu swe feats notes,
     let medium :=
       Model.mk id name params quant 8.99 0.25 128 layers mmlu swe feats notes in
     CtxResult.maxCtxK (calcMaxContextWithOffload medium 12 None) = 12 /\
     calcMaxContext medium 12 = 12).
Proof.
  unfold calcMaxContextWithOffload, calcMaxContext.
  repeat split;
    destruct (Js.leb (vram - Model.weight_gb m) 0);
    destruct (Js.leb (Model.kv_per_1k_gb m) 0); reflexivity.
Qed.

(** ** Resource scaler *)

(** C3.  In the binary64 arithmetic of the code, for a unit count [n]
    between 1 and 8, calcMultiGpuResources pools VRAM as [v * n]; at
    [n = 1], and at a null count, it returns [v] and [b] untouched.  Unknown
    bandwidth stays unknown; known bandwidth becomes [round(b * n * e)] with
    [e = 0.85] at 2 units, [0.75] at 3 and [0.70] from 4 on, the products
    being the rounded ones.  calcMultiGpuResources(24, 1008, 3) is
    [{vram: 72, bandwidth: 2268}]. *)
Theorem calcMultiGpuResources_pooling (v : float) (b : option float) (n : Z)
    (Hn : (1 <= n <= 8)%Z) :
  let q := B64.Js.of_Z n in
  let r := B64.calcMultiGpuResources v b (Some q) in
  (n = 1%Z -> r = B64.Resources.mk v b) /\
  (n <> 1%Z -> B64.Resources.vram r = (v * q)%float) /\
  B64.calcMultiGpuResources v b None = B64.Resources.mk v b /\
  (b = None -> B64.Resources.bandwidth r = None) /\
  (forall bw, b = Some bw -> n = 2%Z ->
     B64.Resources.bandwidth r = Some (B64.Js.round (bw * 2 * 0.85))) /\
  (forall bw, b = Some bw -> n = 3%Z ->
     B64.Resources.bandwidth r = Some (B64.Js.round (bw * 3 * 0.75))) /\
  (forall bw, b = Some bw -> (4 <= n)%Z ->
     B64.Resources.bandwidth r = Some (B64.Js.round (bw * q * 0.70))) /\
  B64.calcMultiGpuResources 24 (Some 1008%float) (Some 3%float) =
    B64.Resources.mk 72 (Some 2268%float).
Proof.
  assert (Hcases : n = 1%Z \/ n = 2%Z \/ n = 3%Z \/ n = 4%Z \/ n = 5%Z \/
                   n = 6%Z \/ n = 7%Z \/ n = 8%Z) by lia.
  cbv zeta. unfold B64.calcMultiGpuResources.
  split; [|split; [|split; [|split; [|split; [|split; [|split]]]]]].
  - intros ->. reflexivity.
  - intros Hne.
    destruct Hcases as [->|[->|[->|[->|[->|[->|[->| ->]]]]]]];
      try congruence; destruct b; reflexivity.
  - reflexivity.
  - intros ->.
    destruct Hcases as [->|[->|[->|[->|[->|[->|[->| ->]]]]]]]; reflexivity.
  - intros bw -> ->. reflexivity.
  - intros bw -> ->. reflexivity.
  - intros bw -> H4.
    destruct Hcases as [->|[->|[->|[->|[->|[->|[->| ->]]]]]]];
      try lia; reflexivity.
  - vm_compute. reflexivity.
Qed.

Lemma calcMultiGpuResources_pooling_witness :
  B64.calcMultiGpuResources 24 (Some 1008%float) (Some (B64.Js.of_Z 3)) =
    B64.Resources.mk 72 (Some 2268%float).
Proof.
  pose proof (calcMultiGpuResources_pooling 24 (Some 1008%float) 3
                ltac:(lia)) as H.
  cbv zeta in H.
  destruct H as (_ & Hv & _ & _ & _ & Hb & _).
  specialize (Hv ltac:(lia)). specialize (Hb _ eq_refl eq_refl).
  destruct (B64.calcMultiGpuResources _ _ _) as [rv rb].
  cbn in Hv, Hb. rewrite Hv, Hb. vm_compute. reflexivity.
Defined.

(** Five units of 273 GB/s: [273 * 5 * 0.70] is [955.49999999999989] in
    binary64, and the pooled bandwidth is 955. *)
Example calcMultiGpuResources_rounded_product :
  B64.calcMultiGpuResources 16 (Some 273%float) (Some 5%float) =
    B64.Resources.mk 80 (Some 955%float).
Proof. vm_compute. reflexivity. Qed.

(** ** Throughput estimator *)

(** C7.  In the binary64 arithmetic of the code, for a model with positive
    weight, calcTokPerSec is unknown (null) exactly when the bandwidth is
    unknown, and is [round(bandwidth / (weight_gb + 1.0))] otherwise, sum
    and quotient being the rounded ones; bandwidth 504 with
    [weight_gb = 8.99] gives 50. *)
Theorem calcTokPerSec_spec (m : B64.Model.t) (bandwidth : option float)
    (Hw : B64.Js.ltb 0 (B64.Model.weight_gb m) = true) :
  (B64.calcTokPerSec m bandwidth = None <-> bandwidth = None) /\
  (forall b, bandwidth = Some b ->
     B64.calcTokPerSec m bandwidth =
       Some (B64.Js.round (b / (B64.Model.weight_gb m + 1.0)))) /\
  (forall id name params quant kv ctx layers mmlu swe feats notes,
     B64.calcTokPerSec
       (B64.Model.mk id name params quant 8.99 kv ctx layers mmlu swe feats notes)
       (Some 504%float) = Some 50%float).
Proof.
  unfold B64.calcTokPerSec. split; [|split].
  - destruct bandwidth; split; congruence.
  - intros b ->. reflexivity.
  - intros. vm_compute. reflexivity.
Qed.

Lemma calcTokPerSec_spec_witness :
  B64.calcTokPerSec B64.mediumModel (Some 504%float) = Some 50%float.
Proof.
  rewrite (proj1 (proj2 (calcTokPerSec_spec B64.mediumModel (Some 504%float)
                           eq_refl)) _ eq_refl).
  vm_compute. reflexivity.
Defined.

(** Bandwidth 1008 with [weight_gb = 7.96]: the quotient is
    [112.49999999999999] in binary64, and the estimate is 112. *)
Example calcTokPerSec_rounded_quotient :
  forall id name params quant kv ctx layers mmlu swe feats notes,
    B64.calcTokPerSec
      (B64.Model.mk id name params quant 7.96 kv ctx layers mmlu swe feats notes)
      (Some 1008%float) = Some 112%float.
Proof. intros. vm_compute. reflexivity. Qed.

(** ** Offload penalty *)

(** The penalty before rounding, for a positive offload ratio. *)
Lemma calcOffloadPenalty_pos (r : Q) (bandwidth : option Q) :
  0 < r ->
  exists p, 0 < p /\ p <= 0.5 /\
    calcOffloadPenalty r bandwidth = Penalty.mk (Js.round (p * 100)) (1 - p) /\
    forall r', r <= r' -> exists p', p <= p' /\ p' <= 0.5 /\
      calcOffloadPenalty r' bandwidth = Penalty.mk (Js.round (p' * 100)) (1 - p').
Proof.
  intros Hr. unfold calcOffloadPenalty.
  apply leb_false in Hr as Hr0. rewrite Hr0.
  set (f := fun r => match bandwidth with
      | Some b => if Js.ltb b 400 then (0.15 + r * 0.70) * 0.80
                  else if Js.ltb b 700 then (0.15 + r * 0.70) * 0.90
                  else 0.15 + r * 0.70
      | None => 0.15 + r * 0.70 end).
  assert (Hf : forall a c, a <= c -> f a <= f c).
  { intros a c Hac. unfold f. destruct bandwidth as [b|]; [|lra].
    destruct (Js.ltb b 400); [lra|]. destruct (Js.ltb b 700); lra. }
  assert (Hfpos : 0 < f r).
  { unfold f. destruct bandwidth as [b|]; [|lra].
    destruct (Js.ltb b 400); [lra|]. destruct (Js.ltb b 700); lra. }
  exists (Js.min (f r) 0.50). repeat split.
  - apply Q.min_glb_lt; [exact Hfpos|lra].
  - pose proof (min_le_r (f r) 0.50). lra.
  - intros r' Hr'. exists (Js.min (f r') 0.50). repeat split.
    + apply Q.min_le_compat_r. now apply Hf.
    + pose proof (min_le_r (f r') 0.50). lra.
    + assert (Hr'0 : Js.leb r' 0 = false) by (apply leb_false; lra).
      now rewrite Hr'0.
Qed.

(** C4.  Whatever the bandwidth (null included), the penalty
    calcOffloadPenalty returns does not decrease when the offload ratio
    grows (on the range 0 to 0.5 and beyond): [penaltyPercent] is
    non-decreasing and [speedMultiplier] non-increasing.  The penalty never
    exceeds 50% ([penaltyPercent <= 50], [speedMultiplier >= 0.5]), and a
    ratio of 0 gives no penalty ([penaltyPercent = 0],
    [speedMultiplier = 1.0]). *)
Theorem calcOffloadPenalty_monotone (bandwidth : option Q) (r1 r2 : Q)
    (Hr : r1 <= r2) :
  Penalty.penaltyPercent (calcOffloadPenalty r1 bandwidth)
    <= Penalty.penaltyPercent (calcOffloadPenalty r2 bandwidth) /\
  Penalty.speedMultiplier (calcOffloadPenalty r2 bandwidth)
    <= Penalty.speedMultiplier (calcOffloadPenalty r1 bandwidth) /\
  Penalty.penaltyPercent (calcOffloadPenalty r2 bandwidth) <= 50 /\
  0.5 <= Penalty.speedMultiplier (calcOffloadPenalty r2 bandwidth) /\
  calcOffloadPenalty 0 bandwidth = Penalty.mk 0 1.0.
Proof.
  assert (Hbound : forall r,
    0 <= Penalty.penaltyPercent (calcOffloadPenalty r bandwidth) <= 50 /\
    0.5 <= Penalty.speedMultiplier (calcOffloadPenalty r bandwidth) <= 1).
  { intros r. destruct (Qlt_le_dec 0 r) as [Hpos|Hneg].
    - destruct (calcOffloadPenalty_pos r bandwidth Hpos) as (p & Hp0 & Hp1 & -> & _).
      cbn. repeat split; try lra.
      + apply round_nonneg. lra.
      + apply (round_le_int _ 50). change (inject_Z 50) with 50. lra.
    - unfold calcOffloadPenalty. apply leb_true in Hneg. rewrite Hneg.
      cbn. repeat split; lra. }
  destruct (Hbound r2) as ((_ & H50) & (H05 & _)).
  repeat split; try assumption.
  - destruct (Qlt_le_dec 0 r1) as [Hpos|Hneg].
    + destruct (calcOffloadPenalty_pos r1 bandwidth Hpos)
        as (p & _ & _ & -> & Hnext).
      destruct (Hnext r2 Hr) as (p' & Hpp' & _ & ->).
      cbn. apply round_mono. lra.
    + destruct (Hbound r2) as ((H0 & _) & _).
      unfold calcOffloadPenalty at 1. apply leb_true in Hneg. rewrite Hneg.
      exact H0.
  - destruct (Qlt_le_dec 0 r1) as [Hpos|Hneg].
    + destruct (calcOffloadPenalty_pos r1 bandwidth Hpos)
        as (p & _ & _ & -> & Hnext).
      destruct (Hnext r2 Hr) as (p' & Hpp' & _ & ->).
      cbn. lra.
    + destruct (Hbound r2) as (_ & (_ & H1)).
      unfold calcOffloadPenalty at 2. apply leb_true in Hneg. rewrite Hneg.
      cbn. lra.
Qed.

Lemma calcOffloadPenalty_monotone_witness :
  Penalty.penaltyPercent (calcOffloadPenalty 0.1 (Some 500))
    <= Penalty.penaltyPercent (calcOffloadPenalty 0.4 (Some 500)).
Proof.
  refine (proj1 (calcOffloadPenalty_monotone (Some 500) 0.1 0.4 _)).
  vm_compute; congruence.
Defined.

(** ** Sorting *)

Section SortFacts.
Context {A : Type} (cmp : A -> A -> Q).

Lemma insert_perm (x : A) (l : list A) : Js.insert cmp x l ≡ₚ x :: l.
Proof.
  induction l as [|y l IH]; cbn; [reflexivity|].
  destruct (Js.gtb (cmp x y) 0); [|reflexivity].
  rewrite IH. apply perm_swap.
Qed.

Lemma sort_perm (l : list A) : Js.sort cmp l ≡ₚ l.
Proof.
  induction l as [|x l IH]; cbn; [reflexivity|].
  rewrite insert_perm. now rewrite IH.
Qed.

Lemma sort_elem_of (x : A) (l : list A) : x ∈ Js.sort cmp l <-> x ∈ l.
Proof. now rewrite sort_perm. Qed.

Lemma sort_length (l : list A) : length (Js.sort cmp l) = length l.
Proof. now rewrite sort_perm. Qed.

(** When the comparator decides a transitive order [R], the result is
    sorted for [R]. *)
Section Sorted.
Variable R : A -> A -> Prop.
Hypothesis R_trans : forall x y z, R x y -> R y z -> R x z.
Hypothesis cmp_above : forall x y, Js.gtb (cmp x y) 0 = true -> R y x.
Hypothesis cmp_below : forall x y, Js.gtb (cmp x y) 0 = false -> R x y.

Lemma insert_sorted (x : A) (l : list A) :
  StronglySorted R l -> StronglySorted R (Js.insert cmp x l).
Proof.
  induction 1 as [|y l Hl IH Hy]; cbn.
  - repeat constructor.
  - destruct (Js.gtb (cmp x y) 0) eqn:E.
    + constructor; [exact IH|].
      rewrite insert_perm. constructor; [now apply cmp_above|exact Hy].
    + apply cmp_below in E.
      constructor; [now constructor|].
      constructor; [exact E|].
      eapply Forall_impl; [exact Hy|]. intros z Hz. now apply (R_trans x y z).
Qed.

Lemma sort_sorted (l : list A) : StronglySorted R (Js.sort cmp l).
Proof.
  induction l as [|x l IH]; cbn; [constructor|].
  now apply insert_sorted.
Qed.
End Sorted.
End SortFacts.

(** ** Bucketing engine *)

Section BucketFacts.
Variables (vram : Q) (bandwidth minContextK minTokPerSec : option Q).
Variables (requiredFeatures : list string) (sortBy : string).
Variable systemRamGB : option Q.

Local Abbreviation entryOf :=
  (enrich vram bandwidth minContextK minTokPerSec requiredFeatures sortBy systemRamGB).
Local Abbreviation buckets :=
  (bucketModels vram bandwidth minContextK minTokPerSec requiredFeatures sortBy
     systemRamGB).

Lemma place_bucketOf (b : Buckets.t) (e : Entry.t) :
  place b e =
    Buckets.mk (Buckets.fits b ++ (if goes InFits e then [e] else []))
               (Buckets.tight b ++ (if goes InTight e then [e] else []))
               (Buckets.noFit b ++ (if goes InNoFit e then [e] else [])).
Proof.
  destruct b as [f t n]. unfold place, goes, bucketOf. cbn.
  repeat match goal with
         | |- context [if ?c then _ else _] => destruct c
         end; cbn; now rewrite ?app_nil_r.
Qed.

Lemma place_fold (es : list Entry.t) (b : Buckets.t) :
  fold_left place es b =
    Buckets.mk (Buckets.fits b ++ filter (fun e => goes InFits e = true) es)
               (Buckets.tight b ++ filter (fun e => goes InTight e = true) es)
               (Buckets.noFit b ++ filter (fun e => goes InNoFit e = true) es).
Proof.
  revert b. induction es as [|e es IH]; intros b; cbn [fold_left].
  - destruct b. rewrite !filter_nil. now rewrite !app_nil_r.
  - rewrite IH, place_bucketOf. cbn [Buckets.fits Buckets.tight Buckets.noFit].
    rewrite !filter_cons, <- !app_assoc.
    destruct (goes InFits e), (goes InTight e), (goes InNoFit e);
      repeat case_decide; try congruence; reflexivity.
Qed.

(** The three buckets before sorting. *)
Lemma buckets_unsorted (allModels : list Model.t) :
  let es := map entryOf allModels in
  Buckets.fits (buckets allModels) ≡ₚ filter (fun e => goes InFits e = true) es /\
  Buckets.tight (buckets allModels) ≡ₚ filter (fun e => goes InTight e = true) es /\
  Buckets.noFit (buckets allModels) ≡ₚ filter (fun e => goes InNoFit e = true) es.
Proof.
  cbv zeta. unfold bucketModels. rewrite place_fold. cbn.
  destruct (bool_decide (sortBy = "swe-bench")); cbn;
    repeat split; apply sort_perm.
Qed.

Lemma partition3 (es : list Entry.t) :
  filter (fun e => goes InFits e = true) es
    ++ filter (fun e => goes InTight e = true) es
    ++ filter (fun e => goes InNoFit e = true) es ≡ₚ es.
Proof.
  induction es as [|e es IH]; [reflexivity|].
  rewrite !filter_cons.
  repeat case_decide;
    try (exfalso; unfold goes in *; destruct (bucketOf e); congruence).
  all: rewrite <- ?app_comm_cons, ?app_assoc, <- ?Permutation_middle, <- ?app_assoc.
  all: now rewrite IH.
Qed.
Lemma goes_true (k : bucket) (e : Entry.t) : goes k e = true <-> bucketOf e = k.
Proof. unfold goes. destruct (bucketOf e), k; split; congruence. Qed.

(** Membership in a bucket of the result. *)
Lemma in_bucket (allModels : list Model.t) (e : Entry.t) :
  (e ∈ Buckets.fits (buckets allModels) <->
     e ∈ map entryOf allModels /\ bucketOf e = InFits) /\
  (e ∈ Buckets.tight (buckets allModels) <->
     e ∈ map entryOf allModels /\ bucketOf e = InTight) /\
  (e ∈ Buckets.noFit (buckets allModels) <->
     e ∈ map entryOf allModels /\ bucketOf e = InNoFit).
Proof.
  destruct (buckets_unsorted allModels) as (Hf & Ht & Hn).
  rewrite Hf, Ht, Hn, !list_elem_of_filter, !goes_true. tauto.
Qed.

Lemma buckets_partition (allModels : list Model.t) :
  Buckets.fits (buckets allModels) ++ Buckets.tight (buckets allModels)
    ++ Buckets.noFit (buckets allModels) ≡ₚ map entryOf allModels.
Proof.
  destruct (buckets_unsorted allModels) as (Hf & Ht & Hn).
  rewrite Hf, Ht, Hn. apply partition3.
Qed.

(** What the callback stores in the fields the bucket tests read. *)
Lemma enrich_model (m : Model.t) : Entry.model (entryOf m) = m.
Proof.
  unfold enrich.
  repeat match goal with
         | |- context [let '(_, _) := ?c in _] => destruct c
         end; reflexivity.
Qed.

Lemma enrich_modelSupportsCtx (m : Model.t) :
  Entry.modelSupportsCtx (entryOf m) =
    match minContextK with
    | Some c => Js.geb (Model.max_context_k m) c
    | None => true
    end.
Proof.
  unfold enrich.
  repeat match goal with
         | |- context [let '(_, _) := ?c in _] => destruct c
         end; reflexivity.
Qed.

(** The offload plan bucketModels consults, and when it attaches it. *)
Lemma enrich_offloadInfo (m : Model.t) :
  match Entry.offloadInfo (entryOf m) with
  | Some info =>
      Js.geb vram (Model.weight_gb m + Model.kv_per_1k_gb m) = false /\
      Js.nonnull systemRamGB = true /\
      (exists p, calcOffloadConfig m vram systemRamGB = Offload.Feasible p /\
                 Js.gtb (Offload.offloadRatio p) 0 = true /\
                 OffloadInfo.gpuWeightGB info = Offload.gpuWeightGB p) /\
      Entry.fitsAtAll (entryOf m) = true /\
      Entry.maxCtxK (entryOf m) =
        (if Js.gtb (Model.kv_per_1k_gb m) 0
         then Js.min
                (Js.floor
                   (Js.max (vram - OffloadInfo.gpuWeightGB info
                            - INFERENCE_OVERHEAD_GB) 0
                    / Model.kv_per_1k_gb m))
                (Model.max_context_k m)
         else Model.max_context_k m)
  | None =>
      Entry.fitsAtAll (entryOf m) =
        Js.geb vram (Model.weight_gb m + Model.kv_per_1k_gb m) /\
      (Js.geb vram (Model.weight_gb m + Model.kv_per_1k_gb m) = false ->
       Js.nonnull systemRamGB = true ->
       forall p, calcOffloadConfig m vram systemRamGB = Offload.Feasible p ->
                 Js.gtb (Offload.offloadRatio p) 0 = false)
  end.
Proof.
  unfold enrich.
  destruct (Js.geb vram (Model.weight_gb m + Model.kv_per_1k_gb m)) eqn:Hfit;
    cbn [negb andb].
  - destruct (Js.nonnull systemRamGB); cbn; (split; [reflexivity|discriminate]).
  - destruct (Js.nonnull systemRamGB) eqn:Hram; cbn [andb].
    + destruct (calcOffloadConfig m vram systemRamGB) as [|p] eqn:Hplan.
      * cbn. split; [reflexivity|discriminate].
      * destruct (Js.gtb (Offload.offloadRatio p) 0) eqn:Hratio.
        -- cbn. repeat split. exists p. repeat split. exact Hratio.
        -- cbn. split; [reflexivity|]. intros _ _ p' [= <-]. exact Hratio.
    + cbn. split; [reflexivity|discriminate].
Qed.
End BucketFacts.

(** C10.  bucketModels partitions its input: the three buckets together
    hold exactly the enriched entries of the catalog, one per model, so the
    bucket lengths add up to the catalog length, and no entry sits in two
    buckets. *)
Theorem bucketModels_partition
    (vram : Q) (bandwidth minContextK minTokPerSec : option Q)
    (requiredFeatures : list string) (sortBy : string) (systemRamGB : option Q)
    (allModels : list Model.t) :
  let entryOf :=
    enrich vram bandwidth minContextK minTokPerSec requiredFeatures sortBy
      systemRamGB in
  let b :=
    bucketModels vram bandwidth minContextK minTokPerSec requiredFeatures sortBy
      systemRamGB allModels in
  Buckets.fits b ++ Buckets.tight b ++ Buckets.noFit b ≡ₚ map entryOf allModels /\
  (length (Buckets.fits b) + length (Buckets.tight b) + length (Buckets.noFit b)
   = length allModels)%nat /\
  (forall m, m ∈ allModels ->
     entryOf m ∈ Buckets.fits b \/ entryOf m ∈ Buckets.tight b
     \/ entryOf m ∈ Buckets.noFit b) /\
  (forall e, ~ (e ∈ Buckets.fits b /\ e ∈ Buckets.tight b) /\
             ~ (e ∈ Buckets.fits b /\ e ∈ Buckets.noFit b) /\
             ~ (e ∈ Buckets.tight b /\ e ∈ Buckets.noFit b)).
Proof.
  cbv zeta.
  pose proof (buckets_partition vram bandwidth minContextK minTokPerSec
                requiredFeatures sortBy systemRamGB allModels) as Hperm.
  split; [exact Hperm|]. split; [|split].
  - apply Permutation_length in Hperm.
    rewrite !length_app, length_map in Hperm. lia.
  - intros m Hm. rewrite <- !elem_of_app, Hperm.
    exact (list_elem_of_fmap_2 _ _ m Hm).
  - intros e.
    destruct (in_bucket vram bandwidth minContextK minTokPerSec requiredFeatures
                sortBy systemRamGB allModels e) as (Hf & Ht & Hn).
    rewrite Hf, Ht, Hn. repeat split; intros [[_ H1] [_ H2]]; congruence.
Qed.

(** C5.  When a minimum context is requested, every catalog model whose
    [max_context_k] is below it is placed in noFit, whatever the VRAM, the
    system RAM, the offload plan and the other filters; none of them is in
    fits or tight. *)
Theorem bucketModels_context_ceiling
    (vram : Q) (bandwidth minTokPerSec : option Q)
    (requiredFeatures : list string) (sortBy : string) (systemRamGB : option Q)
    (allModels : list Model.t) (minContextK : Q) (m : Model.t)
    (Hm : m ∈ allModels)
    (Hctx : Model.max_context_k m < minContextK) :
  let b :=
    bucketModels vram bandwidth (Some minContextK) minTokPerSec requiredFeatures
      sortBy systemRamGB allModels in
  let e :=
    enrich vram bandwidth (Some minContextK) minTokPerSec requiredFeatures sortBy
      systemRamGB m in
  e ∈ Buckets.noFit b /\ (e ∉ Buckets.fits b) /\ (e ∉ Buckets.tight b) /\
  (forall e', e' ∈ Buckets.fits b ++ Buckets.tight b ->
     minContextK <= Model.max_context_k (Entry.model e')).
Proof.
  cbv zeta.
  set (b := bucketModels _ _ _ _ _ _ _ _).
  assert (Hno : forall m', Model.max_context_k m' < minContextK ->
    bucketOf (enrich vram bandwidth (Some minContextK) minTokPerSec
                requiredFeatures sortBy systemRamGB m') = InNoFit).
  { intros m' Hlt. unfold bucketOf.
    rewrite enrich_modelSupportsCtx.
    apply geb_false in Hlt. rewrite Hlt.
    now rewrite orb_true_r. }
  assert (Hin : forall e',
    (e' ∈ Buckets.fits b \/ e' ∈ Buckets.tight b) ->
    minContextK <= Model.max_context_k (Entry.model e')).
  { intros e' He'.
    destruct (in_bucket vram bandwidth (Some minContextK) minTokPerSec
                requiredFeatures sortBy systemRamGB allModels e')
      as (Hf & Ht & _).
    fold b in Hf, Ht.
    assert (He : e' ∈ map (enrich vram bandwidth (Some minContextK) minTokPerSec
                             requiredFeatures sortBy systemRamGB) allModels
                 /\ bucketOf e' <> InNoFit).
    { destruct He' as [H|H]; [apply Hf in H|apply Ht in H];
        destruct H as [H1 H2]; split; congruence. }
    destruct He as [He Hb].
    apply list_elem_of_fmap in He as (m' & -> & _).
    rewrite enrich_model.
    destruct (Qlt_le_dec (Model.max_context_k m') minContextK) as [Hlt|Hle];
      [|exact Hle].
    now apply Hno in Hlt. }
  destruct (in_bucket vram bandwidth (Some minContextK) minTokPerSec
              requiredFeatures sortBy systemRamGB allModels
              (enrich vram bandwidth (Some minContextK) minTokPerSec
                 requiredFeatures sortBy systemRamGB m))
    as (Hf & Ht & Hn).
  fold b in Hf, Ht, Hn.
  pose proof (Hno m Hctx) as Hb.
  repeat split.
  - apply Hn. split; [|exact Hb].
    exact (list_elem_of_fmap_2 _ _ m Hm).
  - intros H. apply Hf in H. destruct H; congruence.
  - intros H. apply Ht in H. destruct H; congruence.
  - intros e' He'. apply Hin. now apply elem_of_app.
Qed.

Lemma bucketModels_context_ceiling_witness :
  enrich 24 (Some 500) (Some 256) None [] "mmlu" None mediumModel
    ∈ Buckets.noFit
        (bucketModels 24 (Some 500) (Some 256) None [] "mmlu" None
           [smallModel; mediumModel]).
Proof.
  refine (proj1 (bucketModels_context_ceiling 24 (Some 500) None [] "mmlu" None
                   [smallModel; mediumModel] 256 mediumModel _ _)).
  - apply list_elem_of_further, list_elem_of_here.
  - vm_compute. reflexivity.
Defined.

(** ** Offload plans inside the bucketing engine *)

(** An active plan keeps [vram - 1.0] GB of weights on the GPU. *)
Lemma active_plan_gpuWeight (m : Model.t) (vram : Q) (systemRamGB : option Q)
    (p : Offload.plan) :
  calcOffloadConfig m vram systemRamGB = Offload.Feasible p ->
  0 < Offload.offloadRatio p ->
  Offload.gpuWeightGB p = Js.max (vram - INFERENCE_OVERHEAD_GB) 0 /\
  0 <= vram - INFERENCE_OVERHEAD_GB.
Proof.
  unfold calcOffloadConfig.
  destruct (Js.leb (Model.weight_gb m) (vram - INFERENCE_OVERHEAD_GB)).
  { intros [= <-]. cbn. intros H. exfalso. revert H. apply Qlt_irrefl. }
  destruct systemRamGB as [ram|]; [|discriminate].
  destruct (Js.gtb _ MAX_OFFLOAD_RATIO || Js.gtb _ ram) eqn:Hok; [discriminate|].
  intros [= <-]. cbn [Offload.gpuWeightGB Offload.offloadRatio].
  intros Hpos. split; [reflexivity|].
  apply orb_false_iff in Hok as [Hhalf _]. apply gtb_false in Hhalf.
  destruct (Qlt_le_dec (vram - INFERENCE_OVERHEAD_GB) 0) as [Hneg|]; [|assumption].
  exfalso.
  assert (Hmax : Js.max (vram - INFERENCE_OVERHEAD_GB) 0 == 0)
    by (apply Q.max_r; lra).
  unfold Js.max in *. rewrite Hmax in Hhalf, Hpos.
  destruct (Qeq_dec (Model.weight_gb m) 0) as [Hz|Hnz].
  - rewrite Hz in Hpos. revert Hpos. apply Qle_not_lt. vm_compute. discriminate.
  - assert (Hone : (Model.weight_gb m - 0) / Model.weight_gb m == 1)
      by (field; exact Hnz).
    rewrite Hone in Hhalf. revert Hhalf. unfold MAX_OFFLOAD_RATIO. lra.
Qed.

(** With an active plan no VRAM is left for the KV cache. *)
Lemma active_plan_context (vram kv cap gpu : Q) :
  gpu = Js.max (vram - INFERENCE_OVERHEAD_GB) 0 ->
  0 < kv -> 0 <= cap ->
  (if Js.gtb kv 0
   then Js.min (Js.floor (Js.max (vram - gpu - INFERENCE_OVERHEAD_GB) 0 / kv)) cap
   else cap) = 0.
Proof.
  intros -> Hkv Hcap.
  apply gtb_true in Hkv as Hkv'. rewrite Hkv'.
  assert (Hz : Js.max (vram - Js.max (vram - INFERENCE_OVERHEAD_GB) 0
                       - INFERENCE_OVERHEAD_GB) 0 / kv == 0).
  { unfold Js.max.
    assert (H0 : Qmax (vram - Qmax (vram - INFERENCE_OVERHEAD_GB) 0
                       - INFERENCE_OVERHEAD_GB) 0 == 0).
    { apply Q.max_r.
      pose proof (Q.le_max_l (vram - INFERENCE_OVERHEAD_GB) 0). lra. }
    rewrite H0. field. lra. }
  unfold Js.floor. rewrite (Qfloor_comp _ _ Hz).
  change (inject_Z (Qfloor 0)) with 0.
  now apply min_left_zero.
Qed.

Lemma active_plan_needs_ram (m : Model.t) (vram : Q) (systemRamGB : option Q) :
  offloadPlanActive m vram systemRamGB -> Js.nonnull systemRamGB = true.
Proof.
  intros (p & Hp & Hpos). destruct systemRamGB; [reflexivity|exfalso].
  revert Hp. unfold calcOffloadConfig.
  destruct (Js.leb _ _); [|discriminate].
  intros [= <-]. revert Hpos. apply Qlt_irrefl.
Qed.

Lemma enrich_in_buckets
    (vram : Q) (bandwidth minContextK minTokPerSec : option Q)
    (requiredFeatures : list string) (sortBy : string) (systemRamGB : option Q)
    (allModels : list Model.t) (e : Entry.t) :
  let b :=
    bucketModels vram bandwidth minContextK minTokPerSec requiredFeatures sortBy
      systemRamGB allModels in
  e ∈ Buckets.fits b ++ Buckets.tight b ++ Buckets.noFit b <->
  exists m, e = enrich vram bandwidth minContextK minTokPerSec requiredFeatures
                  sortBy systemRamGB m /\ m ∈ allModels.
Proof.
  cbv zeta. rewrite buckets_partition. apply list_elem_of_fmap.
Qed.

(** An entry that carries [offloadInfo] is never pushed on fits. *)
Lemma bucketOf_offloaded (e : Entry.t) :
  Entry.offloadInfo e <> None ->
  bucketOf e = (if negb (Entry.fitsAtAll e) || negb (Entry.modelSupportsCtx e)
                then InNoFit else InTight).
Proof.
  intros H. unfold bucketOf.
  destruct (_ || _); [reflexivity|].
  destruct (Entry.offloadInfo e); [reflexivity|congruence].
Qed.

(** C6.  A catalog model to whose entry bucketModels attaches an offload
    plan (the plan of calcOffloadConfig is feasible with a nonzero offload
    ratio; the engine consults it when the baseline fit fails and system
    RAM is given) never appears in fits: whenever it is not in noFit it is
    in tight, whatever the minimum context, minimum speed and required
    features, and it is in noFit only when the requested minimum context
    exceeds its [max_context_k].  No entry of fits carries an offload
    plan. *)
Theorem bucketModels_offloaded_never_fits
    (vram : Q) (bandwidth minContextK minTokPerSec : option Q)
    (requiredFeatures : list string) (sortBy : string) (systemRamGB : option Q)
    (allModels : list Model.t) (m : Model.t)
    (Hm : m ∈ allModels)
    (Hplan : Entry.offloadInfo
               (enrich vram bandwidth minContextK minTokPerSec requiredFeatures
                  sortBy systemRamGB m) <> None) :
  let b :=
    bucketModels vram bandwidth minContextK minTokPerSec requiredFeatures sortBy
      systemRamGB allModels in
  let e :=
    enrich vram bandwidth minContextK minTokPerSec requiredFeatures sortBy
      systemRamGB m in
  offloadPlanActive m vram systemRamGB /\
  (e ∉ Buckets.fits b) /\
  (e ∈ Buckets.tight b \/ e ∈ Buckets.noFit b) /\
  (e ∉ Buckets.noFit b -> e ∈ Buckets.tight b) /\
  (e ∈ Buckets.noFit b <-> Entry.modelSupportsCtx e = false) /\
  (e ∈ Buckets.noFit b <->
   exists c, minContextK = Some c /\ Model.max_context_k m < c) /\
  (forall e', e' ∈ Buckets.fits b -> Entry.offloadInfo e' = None).
Proof.
  cbv zeta.
  set (b := bucketModels _ _ _ _ _ _ _ _).
  set (e := enrich _ _ _ _ _ _ _ m) in *.
  pose proof (enrich_offloadInfo vram bandwidth minContextK minTokPerSec
                requiredFeatures sortBy systemRamGB m) as H.
  fold e in H.
  destruct (Entry.offloadInfo e) as [info|] eqn:Einfo; [|congruence].
  destruct H as (_ & _ & (p & Hp & Hratio & _) & Hfits & _).
  apply gtb_true in Hratio.
  assert (Hinfo : Entry.offloadInfo e <> None) by congruence.
  pose proof (bucketOf_offloaded e Hinfo) as Hb. rewrite Hfits in Hb. cbn in Hb.
  assert (Hin : e ∈ map (enrich vram bandwidth minContextK minTokPerSec
                           requiredFeatures sortBy systemRamGB) allModels)
    by exact (list_elem_of_fmap_2
                (enrich vram bandwidth minContextK minTokPerSec requiredFeatures
                   sortBy systemRamGB) _ m Hm).
  destruct (in_bucket vram bandwidth minContextK minTokPerSec requiredFeatures
              sortBy systemRamGB allModels e) as (Hf & Ht & Hn).
  fold b in Hf, Ht, Hn.
  assert (Hno : e ∈ Buckets.noFit b <-> Entry.modelSupportsCtx e = false).
  { rewrite Hn. split.
    - intros [_ H]. destruct (Entry.modelSupportsCtx e); cbn in Hb; congruence.
    - intros H. split; [exact Hin|]. rewrite H in Hb. exact Hb. }
  split; [exists p; split; assumption|].
  split; [|split; [|split; [|split; [exact Hno|split]]]].
  - rewrite Hf. intros [_ H].
    destruct (Entry.modelSupportsCtx e); cbn in Hb; congruence.
  - rewrite Ht, Hn. destruct (Entry.modelSupportsCtx e); cbn in Hb; tauto.
  - rewrite Ht, Hn. intros H. split; [exact Hin|].
    destruct (Entry.modelSupportsCtx e); cbn in Hb; [exact Hb|tauto].
  - rewrite Hno. unfold e. rewrite enrich_modelSupportsCtx.
    destruct minContextK as [c|].
    + rewrite geb_false. split; [intros H; exists c; now split|].
      intros (c' & [= <-] & H). exact H.
    + split; [discriminate|]. intros (c & [=] & _).
  - intros e' He'.
    destruct (in_bucket vram bandwidth minContextK minTokPerSec requiredFeatures
                sortBy systemRamGB allModels e') as (Hf' & _ & _).
    fold b in Hf'. apply Hf' in He' as [_ He'].
    destruct (Entry.offloadInfo e') eqn:E; [|reflexivity].
    rewrite bucketOf_offloaded in He' by congruence.
    destruct (_ || _); discriminate.
Qed.

Lemma bucketModels_offloaded_never_fits_witness :
  let b :=
    bucketModels 8 (Some 500) (Some 8) (Some 20) ["tools"] "mmlu" (Some 32)
      [smallModel; mediumModel] in
  let e :=
    enrich 8 (Some 500) (Some 8) (Some 20) ["tools"] "mmlu" (Some 32)
      mediumModel in
  offloadPlanActive mediumModel 8 (Some 32) /\
  (e ∈ Buckets.tight b \/ e ∈ Buckets.noFit b).
Proof.
  pose proof (bucketModels_offloaded_never_fits 8 (Some 500) (Some 8) (Some 20)
                ["tools"] "mmlu" (Some 32) [smallModel; mediumModel] mediumModel
                ltac:(apply list_elem_of_further, list_elem_of_here)
                ltac:(vm_compute; discriminate)) as H.
  cbv zeta in H. cbv zeta. split.
  - exact (proj1 H).
  - exact (proj1 (proj2 (proj2 H))).
Defined.

(** C9.  For a model with a positive KV cost (and a trained context that is
    not negative, as in every catalog record), whenever bucketModels
    attaches an offload plan to its entry, the entry's [maxCtxK] is exactly
    0: the plan keeps [gpuWeightGB = vram - 1.0] on the GPU, so nothing is
    left for the KV cache once the 1.0 GB overhead is subtracted. *)
Theorem bucketModels_offload_context_zero
    (vram : Q) (bandwidth minContextK minTokPerSec : option Q)
    (requiredFeatures : list string) (sortBy : string) (systemRamGB : option Q)
    (allModels : list Model.t) (e : Entry.t)
    (He : let b :=
            bucketModels vram bandwidth minContextK minTokPerSec requiredFeatures
              sortBy systemRamGB allModels in
          e ∈ Buckets.fits b ++ Buckets.tight b ++ Buckets.noFit b)
    (Hkv : 0 < Model.kv_per_1k_gb (Entry.model e))
    (Hcap : 0 <= Model.max_context_k (Entry.model e))
    (Hinfo : Entry.offloadInfo e <> None) :
  Entry.maxCtxK e = 0 /\
  offloadPlanActive (Entry.model e) vram systemRamGB /\
  (forall info, Entry.offloadInfo e = Some info ->
     OffloadInfo.gpuWeightGB info == vram - INFERENCE_OVERHEAD_GB /\
     Js.max (vram - OffloadInfo.gpuWeightGB info - INFERENCE_OVERHEAD_GB) 0 == 0).
Proof.
  apply enrich_in_buckets in He as (m & -> & _).
  rewrite enrich_model in Hkv, Hcap |- *.
  pose proof (enrich_offloadInfo vram bandwidth minContextK minTokPerSec
                requiredFeatures sortBy systemRamGB m) as H.
  destruct (Entry.offloadInfo _) as [info|]; [clear Hinfo|congruence].
  destruct H as (_ & _ & (p & Hp & Hratio & Hgpu) & _ & Hctx).
  apply gtb_true in Hratio.
  destruct (active_plan_gpuWeight m vram systemRamGB p Hp Hratio) as [Hmax Hge].
  rewrite <- Hgpu in Hmax.
  split; [|split].
  - rewrite Hctx. now apply active_plan_context.
  - exists p. split; assumption.
  - intros info' [= <-].
    assert (Hg : OffloadInfo.gpuWeightGB info == vram - INFERENCE_OVERHEAD_GB)
      by (rewrite Hmax; apply Q.max_l; exact Hge).
    split; [exact Hg|]. apply Q.max_r. rewrite Hg. lra.
Qed.

Lemma bucketModels_offload_context_zero_witness :
  Entry.maxCtxK (enrich 8 (Some 500) None None [] "mmlu" (Some 32) mediumModel) = 0.
Proof.
  refine (proj1 (bucketModels_offload_context_zero 8 (Some 500) None None []
                   "mmlu" (Some 32) [mediumModel] _ _ _ _ _)).
  - vm_compute. constructor.
  - vm_compute. reflexivity.
  - vm_compute. discriminate.
  - vm_compute. discriminate.
Defined.

(** ** Variant grouper *)

Lemma firstSeen_elem (n : string) (names : list string) :
  n ∈ firstSeen names <-> n ∈ names.
Proof.
  induction names as [|x names IH]; cbn; [reflexivity|].
  rewrite !elem_of_cons, list_elem_of_filter, IH.
  destruct (decide (n = x)); tauto.
Qed.

Lemma firstSeen_NoDup (names : list string) : NoDup (firstSeen names).
Proof.
  induction names as [|x names IH]; cbn; constructor.
  - rewrite list_elem_of_filter. tauto.
  - now apply NoDup_filter.
Qed.

Lemma firstSeen_snoc (names : list string) (n : string) :
  firstSeen (names ++ [n]) =
    if decide (n ∈ names) then firstSeen names else firstSeen names ++ [n].
Proof.
  induction names as [|x names IH]; cbn.
  - case_decide as H; [inversion H|reflexivity].
  - rewrite IH. destruct (decide (n ∈ names)) as [Hin|Hnin].
    + rewrite decide_True by (now apply list_elem_of_further). reflexivity.
    + rewrite filter_app, filter_cons, filter_nil.
      repeat case_decide; rewrite ?app_nil_r; try reflexivity;
        exfalso; rewrite ?elem_of_cons in *; tauto.
Qed.

Lemma variantsOf_snoc (n : string) (l : list Entry.t) (m : Entry.t) :
  variantsOf n (l ++ [m]) =
    if decide (entryName m = n) then variantsOf n l ++ [m] else variantsOf n l.
Proof.
  unfold variantsOf. rewrite filter_app, filter_cons, filter_nil.
  case_decide; [reflexivity|apply app_nil_r].
Qed.

Lemma alter_same_image {A B : Type} (h : A -> B) (f : A -> A) (i : nat) (l : list A) :
  (forall x, h (f x) = h x) -> map h (alter f i l) = map h l.
Proof.
  intros Hh. revert i. induction l as [|x l IH]; intros [|i]; cbn;
    try reflexivity.
  - now rewrite Hh.
  - f_equal. apply IH.
Qed.

Lemma alter_push_variants (m : Entry.t) (i : nat) (groups : list Group.t) :
  (i < length groups)%nat ->
  concat (map Group.variants (alter (Group.push m) i groups))
    ≡ₚ concat (map Group.variants groups) ++ [m].
Proof.
  revert i. induction groups as [|g groups IH]; intros [|i] Hi; cbn in *;
    try lia.
  - rewrite <- !app_assoc. apply Permutation_app_head, Permutation_app_comm.
  - rewrite <- app_assoc. apply Permutation_app_head, IH. lia.
Qed.

Lemma groupInv_nil : groupInv [] [] ∅.
Proof.
  repeat split; try reflexivity.
  - intros H. now rewrite lookup_empty in H.
  - intros (g & Hg & _). now rewrite lookup_nil in Hg.
  - now rewrite lookup_nil in H.
  - now rewrite lookup_nil in H.
Qed.

Lemma groupInv_names (l : list Entry.t) (groups : list Group.t)
    (seen : gmap string nat) (i : nat) (g : Group.t) :
  groupInv l groups seen -> groups !! i = Some g ->
  exists e, e ∈ l /\ entryName e = Group.name g.
Proof.
  intros (_ & _ & Hvar & _) Hg.
  destruct (Hvar i g Hg) as (Hv & e & rest & Hcons & _).
  assert (He : e ∈ variantsOf (Group.name g) l)
    by (rewrite <- Hv, Hcons; left).
  apply list_elem_of_filter in He. exists e. tauto.
Qed.

Lemma variantsOf_none (n : string) (l : list Entry.t) :
  (forall e, e ∈ l -> entryName e <> n) -> variantsOf n l = [].
Proof.
  unfold variantsOf. induction l as [|x l IH]; intros H; [reflexivity|].
  rewrite filter_cons, decide_False by (apply H; left).
  apply IH. intros e He. apply H. now right.
Qed.

Lemma groupStep_inv (l : list Entry.t) (groups : list Group.t)
    (seen : gmap string nat) (m : Entry.t) :
  groupInv l groups seen ->
  groupInv (l ++ [m]) (fst (groupStep (groups, seen) m))
                      (snd (groupStep (groups, seen) m)).
Proof.
  intros Hinv. pose proof Hinv as (Hnames & Hseen & Hvar & Hperm).
  unfold groupStep. fold (entryName m).
  destruct (seen !! entryName m) as [i|] eqn:Hlook; cbn [fst snd].
  - (* the name was seen: push on the group it refers to *)
    apply Hseen in Hlook as Hi. destruct Hi as (g & Hg & Hgn).
    assert (Hlt : (i < length groups)%nat) by (eapply lookup_lt_Some; eauto).
    assert (Hin : entryName m ∈ map entryName l).
    { destruct (groupInv_names l groups seen i g Hinv Hg) as (e & He & Hen).
      rewrite <- Hgn, <- Hen. exact (list_elem_of_fmap_2 entryName l e He). }
    assert (Hsame : map Group.name (alter (Group.push m) i groups)
                    = map Group.name groups)
      by (apply alter_same_image; reflexivity).
    split; [|split; [|split]].
    + rewrite Hsame, map_app. cbn [map]. rewrite firstSeen_snoc.
      now rewrite decide_True by exact Hin.
    + intros n j. rewrite Hseen. split; intros (g' & Hg' & Hn').
      * destruct (decide (j = i)) as [->|Hne].
        -- exists (Group.push m g'). rewrite list_lookup_alter_eq, Hg'. now split.
        -- exists g'. now rewrite list_lookup_alter_ne by congruence.
      * destruct (decide (j = i)) as [->|Hne].
        -- rewrite list_lookup_alter_eq, Hg in Hg'. injection Hg' as <-.
           exists g. now split.
        -- rewrite list_lookup_alter_ne in Hg' by congruence. now exists g'.
    + intros j g' Hg'. destruct (decide (j = i)) as [->|Hne].
      * rewrite list_lookup_alter_eq, Hg in Hg'. injection Hg' as <-.
        destruct (Hvar i g Hg) as (Hv & e & rest & Hcons & Hmeta).
        cbn [Group.push Group.variants Group.name]. rewrite variantsOf_snoc.
        rewrite decide_True by (symmetry; exact Hgn). split; [now rewrite Hv|].
        exists e, (rest ++ [m]). split; [now rewrite Hcons|exact Hmeta].
      * rewrite list_lookup_alter_ne in Hg' by congruence.
        destruct (Hvar j g' Hg') as (Hv & Hhead).
        split; [|exact Hhead]. rewrite variantsOf_snoc.
        rewrite decide_False; [exact Hv|].
        intros Heq. apply Hne.
        assert (Hj : seen !! entryName m = Some j)
          by (apply Hseen; exists g'; now split).
        congruence.
    + rewrite alter_push_variants by exact Hlt. now rewrite Hperm.
  - (* a new name: a new group at the end *)
    assert (Hfresh : forall j g, groups !! j = Some g -> Group.name g <> entryName m).
    { intros j g Hg Heq.
      assert (Hj : seen !! entryName m = Some j)
        by (apply Hseen; exists g; now split).
      congruence. }
    assert (Hnotin : entryName m ∉ map entryName l).
    { rewrite <- firstSeen_elem, <- Hnames. intros Hin.
      apply list_elem_of_fmap in Hin as (g & Hgn & Hg).
      apply list_elem_of_lookup in Hg as (j & Hg).
      now apply (Hfresh j g Hg). }
    split; [|split; [|split]].
    + rewrite !map_app. cbn [map]. rewrite firstSeen_snoc.
      rewrite decide_False by exact Hnotin. now rewrite Hnames.
    + intros n j. destruct (decide (n = entryName m)) as [->|Hne].
      * rewrite lookup_insert_eq. split.
        -- intros [= <-]. exists (newGroup m).
           split; [|reflexivity]. now rewrite lookup_app_r, Nat.sub_diag.
        -- intros (g & Hg & Hgn).
           destruct (decide (j < length groups)%nat) as [Hlt|Hge].
           ++ rewrite lookup_app_l in Hg by exact Hlt.
              now apply Hfresh in Hg.
           ++ apply lookup_lt_Some in Hg. rewrite length_app in Hg.
              cbn in Hg. f_equal. lia.
      * rewrite lookup_insert_ne by congruence. rewrite Hseen.
        split; intros (g & Hg & Hgn); exists g; (split; [|exact Hgn]).
        -- apply lookup_app_l_Some. exact Hg.
        -- destruct (decide (j < length groups)%nat) as [Hlt|Hge].
           ++ now rewrite lookup_app_l in Hg by exact Hlt.
           ++ rewrite lookup_app_r in Hg by lia.
              destruct (j - length groups)%nat; cbn in Hg; [|discriminate].
              injection Hg as <-. exfalso. apply Hne. symmetry. exact Hgn.
    + intros j g Hg.
      destruct (decide (j < length groups)%nat) as [Hlt|Hge].
      * rewrite lookup_app_l in Hg by exact Hlt.
        destruct (Hvar j g Hg) as (Hv & Hhead).
        split; [|exact Hhead]. rewrite variantsOf_snoc.
        rewrite decide_False; [exact Hv|].
        intros Heq. now apply (Hfresh j g Hg).
      * rewrite lookup_app_r in Hg by lia.
        destruct (j - length groups)%nat; cbn in Hg; [|discriminate].
        injection Hg as <-. cbn [newGroup Group.variants Group.name].
        fold (entryName m). rewrite variantsOf_snoc.
        rewrite decide_True by reflexivity.
        assert (Hnone : variantsOf (entryName m) l = []).
        { apply variantsOf_none. intros e He Heq. apply Hnotin.
          rewrite <- Heq. exact (list_elem_of_fmap_2 entryName l e He). }
        rewrite Hnone. split; [reflexivity|].
        exists m, []. split; [reflexivity|]. now repeat split.
    + rewrite map_app, concat_app, Hperm. reflexivity.
Qed.

Lemma groupLoop_inv (l pre : list Entry.t) (groups : list Group.t)
    (seen : gmap string nat) :
  groupInv pre groups seen ->
  groupInv (pre ++ l) (fst (fold_left groupStep l (groups, seen)))
                      (snd (fold_left groupStep l (groups, seen))).
Proof.
  revert pre groups seen. induction l as [|m l IH]; intros pre groups seen Hinv.
  - now rewrite app_nil_r.
  - cbn [fold_left]. apply (groupStep_inv pre groups seen m) in Hinv.
    destruct (groupStep (groups, seen) m) as [groups' seen'].
    apply IH in Hinv. now rewrite <- app_assoc in Hinv.
Qed.

Lemma groupVariants_unfold (models : list Entry.t) :
  groupVariants models =
    map (Group.sortVariants byWeight) (fst (fold_left groupStep models ([], ∅))).
Proof.
  unfold groupVariants. now destruct (fold_left groupStep models ([], ∅)).
Qed.

Lemma sortVariants_concat (cmp : Entry.t -> Entry.t -> Q) (groups : list Group.t) :
  concat (map Group.variants (map (Group.sortVariants cmp) groups))
    ≡ₚ concat (map Group.variants groups).
Proof.
  induction groups as [|g groups IH]; cbn; [reflexivity|].
  now rewrite sort_perm, IH.
Qed.

Lemma byWeight_sorted (l : list Entry.t) :
  StronglySorted
    (fun a b => Model.weight_gb (Entry.model a) <= Model.weight_gb (Entry.model b))
    (Js.sort byWeight l).
Proof.
  apply sort_sorted.
  - intros x y z. apply Qle_trans.
  - intros x y H. apply gtb_true in H. unfold byWeight in H. lra.
  - intros x y H. apply gtb_false in H. unfold byWeight in H. lra.
Qed.

(** C8.  groupVariants lists one group per model name, in order of first
    appearance of the names.  No input entry is dropped or duplicated: the
    variants lists, put together, are a rearrangement of the input, and
    their lengths add up to the input length.  A group holds exactly the
    entries of its name; its shared metadata (name, params_b, tier,
    mmlu_score, swe_bench_score, features) come from the first input entry
    of that name, and its variants are sorted by ascending [weight_gb]. *)
Theorem groupVariants_spec (models : list Entry.t) :
  let groups := groupVariants models in
  map Group.name groups = firstSeen (map entryName models) /\
  NoDup (map Group.name groups) /\
  concat (map Group.variants groups) ≡ₚ models /\
  list_sum (map (fun g => length (Group.variants g)) groups) = length models /\
  (forall g, g ∈ groups ->
     (exists first rest,
        variantsOf (Group.name g) models = first :: rest /\
        metadataFrom g first) /\
     Group.variants g = Js.sort byWeight (variantsOf (Group.name g) models) /\
     Group.variants g ≡ₚ variantsOf (Group.name g) models /\
     StronglySorted
       (fun a b =>
          Model.weight_gb (Entry.model a) <= Model.weight_gb (Entry.model b))
       (Group.variants g)).
Proof.
  cbv zeta. rewrite groupVariants_unfold.
  pose proof (groupLoop_inv models [] [] ∅ groupInv_nil) as Hinv.
  cbn [app] in Hinv.
  destruct (fold_left groupStep models ([], ∅)) as [groups seen].
  cbn [fst snd] in *. destruct Hinv as (Hnames & _ & Hvar & Hperm).
  assert (Hsame : map Group.name (map (Group.sortVariants byWeight) groups)
                  = map Group.name groups)
    by (rewrite map_map; reflexivity).
  assert (Hall : concat (map Group.variants
                           (map (Group.sortVariants byWeight) groups)) ≡ₚ models)
    by (now rewrite sortVariants_concat).
  split; [now rewrite Hsame|].
  split; [rewrite Hsame, Hnames; apply firstSeen_NoDup|].
  split; [exact Hall|].
  split.
  - apply Permutation_length in Hall.
    rewrite length_concat, map_map in Hall. exact Hall.
  - intros g' Hg'. apply list_elem_of_fmap in Hg' as (g & -> & Hg).
    apply list_elem_of_lookup in Hg as (i & Hg).
    destruct (Hvar i g Hg) as (Hv & first & rest & Hcons & Hmeta).
    cbn [Group.sortVariants Group.name Group.variants]. rewrite <- Hv.
    split; [|split; [reflexivity|split]].
    + exists first, rest. split; [exact Hcons|exact Hmeta].
    + apply sort_perm.
    + apply byWeight_sorted.
Qed.

(** * Further properties of the engine *)

(** ** Arithmetic helpers *)

Lemma floor_mono (x y : Q) : x <= y -> Js.floor x <= Js.floor y.
Proof.
  intros H. unfold Js.floor. rewrite <- Zle_Qle. now apply Qfloor_resp_le.
Qed.

Lemma floor_nonneg (x : Q) : 0 <= x -> 0 <= Js.floor x.
Proof.
  intros H. apply (floor_mono 0 x) in H. exact H.
Qed.

Lemma div_mono_num (a b d : Q) : 0 < d -> a <= b -> a / d <= b / d.
Proof.
  intros Hd Hab. unfold Qdiv. apply Qmult_le_compat_r; [exact Hab|].
  apply Qlt_le_weak, Qinv_lt_0_compat, Hd.
Qed.

Lemma div_nonneg (a d : Q) : 0 < d -> 0 <= a -> 0 <= a / d.
Proof.
  intros Hd Ha. apply Qle_shift_div_l; [exact Hd|]. lra.
Qed.

Lemma div_anti_den (b d d' : Q) : 0 <= b -> 0 < d -> d <= d' -> b / d' <= b / d.
Proof.
  intros Hb Hd Hdd.
  assert (Hd' : 0 < d') by lra.
  apply Qle_shift_div_r; [exact Hd'|].
  pose proof (div_nonneg b d Hd Hb) as Hq.
  assert (Hback : b == b / d * d) by (field; lra).
  nra.
Qed.

(** ** Context with system RAM (calcMaxContextWithOffload) *)

(** X1.  Whatever the inputs, the context reported by
    calcMaxContextWithOffload is the sum of its VRAM share and its RAM
    share, the RAM share is never negative and the VRAM share never
    exceeds the total. *)
Theorem calcMaxContextWithOffload_breakdown (m : Model.t) (vram : Q)
    (systemRamGB : option Q) :
  let r := calcMaxContextWithOffload m vram systemRamGB in
  CtxResult.maxCtxK r == CtxResult.vramCtxK r + CtxResult.ramCtxK r /\
  0 <= CtxResult.ramCtxK r /\
  CtxResult.vramCtxK r <= CtxResult.maxCtxK r.
Proof.
  cbv zeta. unfold calcMaxContextWithOffload.
  destruct (Js.leb (vram - Model.weight_gb m) 0); [cbn; lra|].
  destruct (Js.leb (Model.kv_per_1k_gb m) 0); [cbn; lra|].
  destruct systemRamGB as [ram|]; cbn; [|lra].
  match goal with |- context [Js.min ?v (Js.min ?s ?c)] =>
    pose proof (Q.le_min_r v (Js.min s c)) end.
  unfold Js.min in *. lra.
Qed.

(** X2.  With system RAM given, [usingSystemRam] is set exactly when the
    RAM buys context: when the total is larger than what calcMaxContext
    gives on VRAM alone. *)
Theorem usingSystemRam_iff_gain (m : Model.t) (vram ram : Q) :
  CtxResult.usingSystemRam (calcMaxContextWithOffload m vram (Some ram)) = true
  <-> calcMaxContext m vram
      < CtxResult.maxCtxK (calcMaxContextWithOffload m vram (Some ram)).
Proof.
  unfold calcMaxContextWithOffload, calcMaxContext.
  destruct (Js.leb (vram - Model.weight_gb m) 0);
    [cbn; split; [discriminate|lra]|].
  destruct (Js.leb (Model.kv_per_1k_gb m) 0);
    [cbn; split; [discriminate|lra]|].
  cbn. rewrite gtb_true. unfold Js.min.
  set (v := Js.floor _). set (rc := Js.floor _). set (cap := Model.max_context_k m).
  destruct (Q.min_spec (v + rc) cap) as [[? Ht]|[? Ht]];
    destruct (Q.min_spec v (Qmin (v + rc) cap)) as [[? Hm]|[? Hm]];
    destruct (Q.min_spec v cap) as [[? Hc]|[? Hc]];
    rewrite ?Ht in *; lra.
Qed.

(** X3.  For a model with a positive trained context and a system RAM
    budget that is not negative: the VRAM share is what calcMaxContext
    gives, system RAM never lowers the context, more system RAM never
    lowers it either, and the total stays capped at [max_context_k]. *)
Theorem calcMaxContextWithOffload_extends (m : Model.t) (vram ram ram' : Q)
    (Hcap : 0 < Model.max_context_k m)
    (Hram : 0 <= ram)
    (Hmore : ram <= ram') :
  let r := calcMaxContextWithOffload m vram (Some ram) in
  let r' := calcMaxContextWithOffload m vram (Some ram') in
  CtxResult.vramCtxK r == calcMaxContext m vram /\
  calcMaxContext m vram <= CtxResult.maxCtxK r /\
  CtxResult.maxCtxK r <= CtxResult.maxCtxK r' /\
  CtxResult.maxCtxK r <= Model.max_context_k m.
Proof.
  cbv zeta. unfold calcMaxContextWithOffload, calcMaxContext.
  destruct (Js.leb (vram - Model.weight_gb m) 0); [cbn; lra|].
  destruct (Js.leb (Model.kv_per_1k_gb m) 0) eqn:Hkv; [cbn; lra|].
  apply leb_false in Hkv. cbn.
  set (v := Js.floor _).
  set (cap := Model.max_context_k m) in *.
  assert (Hrc : 0 <= Js.floor (ram / Model.kv_per_1k_gb m))
    by (apply floor_nonneg, div_nonneg; assumption).
  assert (Hrc' : Js.floor (ram / Model.kv_per_1k_gb m)
                 <= Js.floor (ram' / Model.kv_per_1k_gb m))
    by (apply floor_mono, div_mono_num; assumption).
  revert Hrc Hrc'.
  set (rc := Js.floor (ram / _)). set (rc' := Js.floor (ram' / _)).
  intros Hrc Hrc'. unfold Js.min.
  destruct (Q.min_spec (v + rc) cap) as [[? Ht]|[? Ht]];
    destruct (Q.min_spec (v + rc') cap) as [[? Ht']|[? Ht']];
    destruct (Q.min_spec v (Qmin (v + rc) cap)) as [[? Hm]|[? Hm]];
    destruct (Q.min_spec v cap) as [[? Hc]|[? Hc]];
    rewrite ?Ht in *; lra.
Qed.

Lemma calcMaxContextWithOffload_extends_witness :
  calcMaxContext smallModel 2
    <= CtxResult.maxCtxK (calcMaxContextWithOffload smallModel 2 (Some 32)).
Proof.
  refine (proj1 (proj2
    (calcMaxContextWithOffload_extends smallModel 2 32 64 _ _ _)));
    vm_compute; congruence.
Defined.

(** ** Monotonicity of the basic estimators *)

(** X4.  For a model whose trained context is not negative, calcMaxContext
    is never negative and more VRAM never lowers it. *)
Theorem calcMaxContext_monotone (m : Model.t) (vram vram' : Q)
    (Hcap : 0 <= Model.max_context_k m)
    (Hv : vram <= vram') :
  0 <= calcMaxContext m vram /\
  calcMaxContext m vram <= calcMaxContext m vram'.
Proof.
  assert (Hpos : forall v, 0 <= calcMaxContext m v).
  { intros v. unfold calcMaxContext.
    destruct (Js.leb (v - Model.weight_gb m) 0) eqn:Hfit; [lra|].
    destruct (Js.leb (Model.kv_per_1k_gb m) 0) eqn:Hkv; [exact Hcap|].
    apply leb_false in Hfit, Hkv.
    apply Q.min_glb; [|exact Hcap].
    apply floor_nonneg, div_nonneg; lra. }
  split; [apply Hpos|].
  pose proof (Hpos vram') as Hpos'. revert Hpos'. unfold calcMaxContext.
  destruct (Js.leb (vram - Model.weight_gb m) 0) eqn:Hfit; [tauto|].
  destruct (Js.leb (vram' - Model.weight_gb m) 0) eqn:Hfit'.
  { apply leb_false in Hfit. apply leb_true in Hfit'. lra. }
  destruct (Js.leb (Model.kv_per_1k_gb m) 0) eqn:Hkv; [lra|].
  intros _. apply leb_false in Hkv.
  apply Q.min_le_compat_r, floor_mono, div_mono_num; lra.
Qed.

Lemma calcMaxContext_monotone_witness :
  calcMaxContext mediumModel 12 <= calcMaxContext mediumModel 24.
Proof.
  refine (proj2 (calcMaxContext_monotone mediumModel 12 24 _ _));
    vm_compute; congruence.
Defined.

(** X5.  For a model whose weight is not negative and a bandwidth that is
    not negative: the estimated speed is not negative, more bandwidth
    never lowers it, and a heavier model is never estimated faster. *)
Theorem calcTokPerSec_monotone (m m' : Model.t) (b b' : Q)
    (Hw : 0 <= Model.weight_gb m)
    (Hb : 0 <= b)
    (Hbb : b <= b')
    (Hww : Model.weight_gb m <= Model.weight_gb m') :
  exists t t' s,
    calcTokPerSec m (Some b) = Some t /\
    calcTokPerSec m (Some b') = Some t' /\
    calcTokPerSec m' (Some b) = Some s /\
    0 <= s /\ s <= t /\ t <= t'.
Proof.
  unfold calcTokPerSec, INFERENCE_OVERHEAD_GB.
  eexists _, _, _. repeat split.
  - apply round_nonneg, div_nonneg; lra.
  - apply round_mono, div_anti_den; lra.
  - apply round_mono, div_mono_num; lra.
Qed.

Lemma calcTokPerSec_monotone_witness :
  exists t t' s,
    calcTokPerSec smallModel (Some 300) = Some t /\
    calcTokPerSec smallModel (Some 500) = Some t' /\
    calcTokPerSec mediumModel (Some 300) = Some s /\
    0 <= s /\ s <= t /\ t <= t'.
Proof.
  refine (calcTokPerSec_monotone smallModel mediumModel 300 500 _ _ _ _);
    vm_compute; congruence.
Defined.

(** ** Offload planner (calcOffloadConfig) *)

(** The two ways calcOffloadConfig reports a feasible plan. *)
Lemma calcOffloadConfig_feasible (m : Model.t) (vram : Q) (systemRamGB : option Q)
    (p : Offload.plan) :
  calcOffloadConfig m vram systemRamGB = Offload.Feasible p <->
  (Model.weight_gb m <= vram - INFERENCE_OVERHEAD_GB /\ p = Offload.mk (Model.weight_gb m) 0 0 0) \/
  (vram - INFERENCE_OVERHEAD_GB < Model.weight_gb m /\
   exists ram, systemRamGB = Some ram /\
     let gpu := Qmax (vram - INFERENCE_OVERHEAD_GB) 0 in
     let ramWeightGB := Model.weight_gb m - gpu in
     let offloadRatio := ramWeightGB / Model.weight_gb m in
     offloadRatio <= 0.5 /\ ramWeightGB <= ram /\
     p = Offload.mk gpu ramWeightGB offloadRatio
           (Js.round (offloadRatio * default 0 (Model.layers m)))).
Proof.
  unfold calcOffloadConfig, MAX_OFFLOAD_RATIO, Js.max.
  set (a := vram - INFERENCE_OVERHEAD_GB).
  destruct (Js.leb (Model.weight_gb m) a) eqn:Hfit.
  - apply leb_true in Hfit. split.
    + intros [= <-]. left. now split.
    + intros [[_ ->]|[Hlt _]]; [reflexivity|lra].
  - apply leb_false in Hfit. split.
    + intros Hp. right. split; [exact Hfit|].
      destruct systemRamGB as [ram|]; [|discriminate]. exists ram.
      destruct (Js.gtb _ 0.5 || Js.gtb _ ram) eqn:Hok; [discriminate|].
      apply orb_false_iff in Hok as [H1 H2].
      apply gtb_false in H1, H2. injection Hp as <-. cbv zeta. tauto.
    + intros [[Hle _]|[_ (ram & -> & H1 & H2 & ->)]]; [lra|].
      apply gtb_false in H1, H2. now rewrite H1, H2.
Qed.

Lemma ratio_le_half (x w : Q) : 0 < w -> (x / w <= 0.5 <-> 2 * x <= w).
Proof.
  intros Hw. split; intros H.
  - assert (Hx : x == x / w * w) by (field; lra). nra.
  - apply Qle_shift_div_r; [exact Hw|]. lra.
Qed.

(** X6.  A feasible plan for a model of positive weight splits the weights
    exactly: the GPU share and the RAM share add up to [weight_gb], both
    lie between 0 and [weight_gb], the GPU share leaves the 1 GB reserve
    free, the ratio is the RAM share over the weight and lies between 0 and
    0.5, and a plan that offloads anything fits in the system RAM. *)
Theorem calcOffloadConfig_plan (m : Model.t) (vram : Q) (systemRamGB : option Q)
    (p : Offload.plan)
    (Hw : 0 < Model.weight_gb m)
    (Hp : calcOffloadConfig m vram systemRamGB = Offload.Feasible p) :
  Offload.gpuWeightGB p + Offload.ramWeightGB p == Model.weight_gb m /\
  0 <= Offload.gpuWeightGB p /\
  Offload.gpuWeightGB p <= Qmax (vram - INFERENCE_OVERHEAD_GB) 0 /\
  0 <= Offload.ramWeightGB p /\
  Offload.offloadRatio p * Model.weight_gb m == Offload.ramWeightGB p /\
  0 <= Offload.offloadRatio p /\ Offload.offloadRatio p <= 0.5 /\
  (0 < Offload.offloadRatio p ->
   exists ram, systemRamGB = Some ram /\ Offload.ramWeightGB p <= ram).
Proof.
  apply calcOffloadConfig_feasible in Hp
    as [[Hfit ->]|[Hfit (ram & Hsys & Hhalf & Hram & ->)]]; cbn;
    unfold INFERENCE_OVERHEAD_GB in *.
  - pose proof (Q.le_max_l (vram - 1.0) 0). repeat split; lra.
  - pose proof (Q.le_max_l (vram - 1.0) 0) as Hl.
    pose proof (Q.le_max_r (vram - 1.0) 0) as Hr.
    assert (Hmax : Qmax (vram - 1.0) 0 <= Model.weight_gb m)
      by (apply Q.max_lub; lra).
    repeat split; try lra.
    + field. lra.
    + apply div_nonneg; lra.
    + intros _. exists ram. now split.
Qed.

Lemma calcOffloadConfig_plan_witness :
  exists p, calcOffloadConfig mediumModel 8 (Some 32) = Offload.Feasible p /\
    Offload.gpuWeightGB p + Offload.ramWeightGB p == Model.weight_gb mediumModel.
Proof.
  eexists. split; [reflexivity|].
  refine (proj1 (calcOffloadConfig_plan mediumModel 8 (Some 32) _ _ _)).
  - vm_compute. reflexivity.
  - reflexivity.
Defined.

(** X7.  More VRAM, or more system RAM, never turns a feasible plan
    infeasible: for a model of positive weight, a plan that is feasible
    stays feasible with at least as much VRAM (and the same system RAM, or
    at least as much of it), the new plan keeps at least as much of the
    weights on the GPU, moves at most as much to system RAM, and its
    offload ratio is no higher. *)
Theorem calcOffloadConfig_monotone (m : Model.t) (vram vram' : Q)
    (systemRamGB systemRamGB' : option Q) (p : Offload.plan)
    (Hw : 0 < Model.weight_gb m)
    (Hp : calcOffloadConfig m vram systemRamGB = Offload.Feasible p)
    (Hv : vram <= vram')
    (Hram : forall ram, systemRamGB = Some ram ->
              exists ram', systemRamGB' = Some ram' /\ ram <= ram') :
  exists p', calcOffloadConfig m vram' systemRamGB' = Offload.Feasible p' /\
    Offload.offloadRatio p' <= Offload.offloadRatio p /\
    Offload.ramWeightGB p' <= Offload.ramWeightGB p /\
    Offload.gpuWeightGB p <= Offload.gpuWeightGB p'.
Proof.
  apply calcOffloadConfig_feasible in Hp
    as [[Hfit ->]|[Hfit (ram & Hsys & Hhalf & Hfits & ->)]].
  - exists (Offload.mk (Model.weight_gb m) 0 0 0). split.
    + apply calcOffloadConfig_feasible. left. split; [|reflexivity].
      unfold INFERENCE_OVERHEAD_GB in *. lra.
    + cbn. repeat split; lra.
  - cbv zeta in Hhalf, Hfits.
    destruct (Hram ram Hsys) as (ram' & -> & Hle).
    pose proof (Q.le_max_r (vram - INFERENCE_OVERHEAD_GB) 0) as H0.
    assert (Hmax : Qmax (vram - INFERENCE_OVERHEAD_GB) 0 <= Model.weight_gb m)
      by (apply Q.max_lub; lra).
    destruct (Qlt_le_dec (vram' - INFERENCE_OVERHEAD_GB) (Model.weight_gb m))
      as [Hlt|Hge].
    + assert (Hmono : Qmax (vram - INFERENCE_OVERHEAD_GB) 0
                      <= Qmax (vram' - INFERENCE_OVERHEAD_GB) 0)
        by (apply Q.max_le_compat_r; lra).
      assert (Hratio : (Model.weight_gb m - Qmax (vram' - INFERENCE_OVERHEAD_GB) 0)
                         / Model.weight_gb m
                       <= (Model.weight_gb m - Qmax (vram - INFERENCE_OVERHEAD_GB) 0)
                            / Model.weight_gb m)
        by (apply div_mono_num; [exact Hw|lra]).
      eexists. split.
      * apply calcOffloadConfig_feasible. right. split; [exact Hlt|].
        exists ram'. split; [reflexivity|]. cbv zeta.
        split; [|split; [|reflexivity]]; lra.
      * cbn. repeat split; [exact Hratio|lra|exact Hmono].
    + exists (Offload.mk (Model.weight_gb m) 0 0 0). split.
      * apply calcOffloadConfig_feasible. left. now split.
      * cbn. repeat split; [|lra|exact Hmax].
        apply div_nonneg; [exact Hw|lra].
Qed.

Lemma calcOffloadConfig_monotone_witness :
  exists p p',
    calcOffloadConfig mediumModel 8 (Some 4) = Offload.Feasible p /\
    calcOffloadConfig mediumModel 9 (Some 32) = Offload.Feasible p' /\
    Offload.offloadRatio p' <= Offload.offloadRatio p /\
    Offload.ramWeightGB p' <= Offload.ramWeightGB p /\
    Offload.gpuWeightGB p <= Offload.gpuWeightGB p'.
Proof.
  eexists.
  destruct (calcOffloadConfig_monotone mediumModel 8 9 (Some 4) (Some 32) _
              ltac:(vm_compute; reflexivity) eq_refl
              ltac:(vm_compute; discriminate)
              ltac:(intros ram [= <-]; exists 32; split;
                    [reflexivity|vm_compute; discriminate]))
    as (p' & Hp' & H).
  exists p'. split; [reflexivity|]. split; [exact Hp'|exact H].
Defined.

Lemma round_half_le (x L : Q) : 0 <= x -> 2 * x <= L -> Js.round x <= L.
Proof.
  intros Hx HL. unfold Js.round.
  pose proof (Qfloor_le (x + 0.5)) as Hfl.
  destruct (Qlt_le_dec L 1) as [Hsmall|Hbig]; [|lra].
  assert (Hlt : inject_Z (Qfloor (x + 0.5)) < inject_Z 1)
    by (change (inject_Z 1) with 1; lra).
  rewrite <- Zlt_Qlt in Hlt.
  assert (Hz : (Qfloor (x + 0.5) <= 0)%Z) by lia.
  rewrite Zle_Qle in Hz. change (inject_Z 0) with 0 in Hz. lra.
Qed.

(** X8.  In a feasible plan for a model of positive weight,
    [estimatedLayers] is 0 when the record has no [layers] field, and lies
    between 0 and [layers] when it has one that is not negative. *)
Theorem calcOffloadConfig_layers (m : Model.t) (vram : Q) (systemRamGB : option Q)
    (p : Offload.plan)
    (Hw : 0 < Model.weight_gb m)
    (Hp : calcOffloadConfig m vram systemRamGB = Offload.Feasible p) :
  (Model.layers m = None -> Offload.estimatedLayers p = 0) /\
  (forall L, Model.layers m = Some L -> 0 <= L ->
     0 <= Offload.estimatedLayers p /\ Offload.estimatedLayers p <= L).
Proof.
  apply calcOffloadConfig_feasible in Hp
    as [[Hfit ->]|[Hfit (ram & Hsys & Hhalf & Hram & ->)]]; cbn;
    unfold INFERENCE_OVERHEAD_GB in *.
  - split; [reflexivity|]. intros L _ HL. lra.
  - pose proof (Q.le_max_l (vram - 1.0) 0) as Hl.
    pose proof (Q.le_max_r (vram - 1.0) 0) as Hr.
    assert (Hmax : Qmax (vram - 1.0) 0 <= Model.weight_gb m)
      by (apply Q.max_lub; lra).
    assert (Hratio : 0 <= (Model.weight_gb m - Qmax (vram - 1.0) 0) / Model.weight_gb m)
      by (apply div_nonneg; lra).
    split.
    + intros ->. cbn. unfold Js.round.
      rewrite (Qfloor_comp _ 0.5); [reflexivity|]. lra.
    + intros L -> HL. cbn. split.
      * apply round_nonneg. nra.
      * apply round_half_le; nra.
Qed.

Lemma calcOffloadConfig_layers_witness :
  exists p, calcOffloadConfig mediumModel 8 (Some 32) = Offload.Feasible p /\
    (Model.layers mediumModel = None -> Offload.estimatedLayers p = 0).
Proof.
  eexists. split; [reflexivity|].
  refine (proj1 (calcOffloadConfig_layers mediumModel 8 (Some 32) _ _ _)).
  - vm_compute. reflexivity.
  - reflexivity.
Defined.

(** ** Offload penalty and bandwidth *)

(** The penalty record for a positive ratio: the raw penalty scaled by the
    factor of the bandwidth class, capped at one half. *)
Lemma calcOffloadPenalty_factor (r : Q) (bandwidth : option Q) :
  0 < r ->
  exists p f,
    calcOffloadPenalty r bandwidth = Penalty.mk (Js.round (p * 100)) (1 - p) /\
    p == Qmin ((0.15 + r * 0.70) * f) 0.5 /\
    match bandwidth with
    | None => f == 1
    | Some b => (b < 400 /\ f == 0.80) \/ (400 <= b /\ b < 700 /\ f == 0.90)
                \/ (700 <= b /\ f == 1)
    end.
Proof.
  intros Hr. apply leb_false in Hr. unfold calcOffloadPenalty. rewrite Hr.
  cbv zeta. unfold Js.min.
  destruct bandwidth as [b|].
  - destruct (Js.ltb b 400) eqn:H4; [|destruct (Js.ltb b 700) eqn:H7].
    + apply ltb_true in H4. eexists _, 0.80. split; [reflexivity|]. split.
      * apply Q.min_compat; reflexivity.
      * left. split; [exact H4|reflexivity].
    + apply ltb_false in H4. apply ltb_true in H7. eexists _, 0.90.
      split; [reflexivity|]. split.
      * apply Q.min_compat; reflexivity.
      * right. left. repeat split; assumption || reflexivity.
    + apply ltb_false in H4, H7. eexists _, 1. split; [reflexivity|]. split.
      * apply Q.min_compat; [lra|reflexivity].
      * right. right. split; [exact H7|reflexivity].
  - eexists _, 1. split; [reflexivity|]. split; [|reflexivity].
    apply Q.min_compat; [lra|reflexivity].
Qed.

Lemma round_ge_int (x : Q) (n : Z) : inject_Z n <= x -> inject_Z n <= Js.round x.
Proof.
  intros H. unfold Js.round. rewrite <- Zle_Qle.
  rewrite <- (Qfloor_Z n). apply Qfloor_resp_le. lra.
Qed.

(** X9.  For the same offload ratio, a GPU with less bandwidth never gets a
    larger penalty than one with more, and an unknown bandwidth gets the
    full penalty, the one of a GPU of 700 GB/s or more. *)
Theorem calcOffloadPenalty_bandwidth (r b b' : Q) (Hb : b <= b') :
  Penalty.penaltyPercent (calcOffloadPenalty r (Some b))
    <= Penalty.penaltyPercent (calcOffloadPenalty r (Some b')) /\
  Penalty.penaltyPercent (calcOffloadPenalty r (Some b'))
    <= Penalty.penaltyPercent (calcOffloadPenalty r None) /\
  Penalty.speedMultiplier (calcOffloadPenalty r None)
    <= Penalty.speedMultiplier (calcOffloadPenalty r (Some b')) /\
  Penalty.speedMultiplier (calcOffloadPenalty r (Some b'))
    <= Penalty.speedMultiplier (calcOffloadPenalty r (Some b)) /\
  (700 <= b' ->
   Penalty.penaltyPercent (calcOffloadPenalty r (Some b'))
     == Penalty.penaltyPercent (calcOffloadPenalty r None) /\
   Penalty.speedMultiplier (calcOffloadPenalty r (Some b'))
     == Penalty.speedMultiplier (calcOffloadPenalty r None)).
Proof.
  destruct (Qlt_le_dec 0 r) as [Hr|Hr].
  - destruct (calcOffloadPenalty_factor r (Some b) Hr) as (p & f & -> & Hp & Hf).
    destruct (calcOffloadPenalty_factor r (Some b') Hr) as (p' & f' & -> & Hp' & Hf').
    destruct (calcOffloadPenalty_factor r None Hr) as (q & g & -> & Hq & Hg).
    cbn.
    assert (Hff : f <= f' /\ f' <= g) by (rewrite Hg; lra).
    assert (Hpp : p <= p' /\ p' <= q).
    { rewrite Hp, Hp', Hq. split; apply Q.min_le_compat_r; nra. }
    repeat split; try (apply round_mono); try lra.
    + assert (Heq : p' == q).
      { rewrite Hp', Hq. apply Q.min_compat; [|reflexivity].
        assert (f' == g) by (rewrite Hg; lra). nra. }
      unfold Js.round. now rewrite Heq.
    + assert (Heq : p' == q).
      { rewrite Hp', Hq. apply Q.min_compat; [|reflexivity].
        assert (f' == g) by (rewrite Hg; lra). nra. }
      lra.
  - apply leb_true in Hr. unfold calcOffloadPenalty. rewrite Hr. cbn.
    repeat split; lra.
Qed.

Lemma calcOffloadPenalty_bandwidth_witness :
  Penalty.penaltyPercent (calcOffloadPenalty 0.3 (Some 300))
    <= Penalty.penaltyPercent (calcOffloadPenalty 0.3 (Some 800)).
Proof.
  refine (proj1 (calcOffloadPenalty_bandwidth 0.3 300 800 _)).
  vm_compute. congruence.
Defined.

(** X10.  Any positive offload ratio costs speed: the penalty is at least
    12% (speed multiplier at most 0.88) whatever the bandwidth, and at
    least 15% (multiplier at most 0.85) when the bandwidth is unknown or
    700 GB/s and more. *)
Theorem calcOffloadPenalty_floor (r : Q) (bandwidth : option Q) (Hr : 0 < r) :
  12 <= Penalty.penaltyPercent (calcOffloadPenalty r bandwidth) /\
  Penalty.speedMultiplier (calcOffloadPenalty r bandwidth) <= 0.88 /\
  ((bandwidth = None \/ exists b, bandwidth = Some b /\ 700 <= b) ->
   15 <= Penalty.penaltyPercent (calcOffloadPenalty r bandwidth) /\
   Penalty.speedMultiplier (calcOffloadPenalty r bandwidth) <= 0.85).
Proof.
  destruct (calcOffloadPenalty_factor r bandwidth Hr) as (p & f & -> & Hp & Hf).
  cbn.
  assert (Hf8 : 0.80 <= f).
  { destruct bandwidth as [b|]; [|lra].
    destruct Hf as [[_ ->]|[(_ & _ & ->)|[_ ->]]]; lra. }
  assert (H12 : 0.12 <= p).
  { rewrite Hp. apply Q.min_glb; nra. }
  split; [|split].
  - apply (round_ge_int _ 12). change (inject_Z 12) with 12. lra.
  - lra.
  - intros Hfull.
    assert (Hf1 : f == 1).
    { destruct Hfull as [->|(b & -> & Hb)]; [exact Hf|].
      destruct Hf as [[? _]|[(_ & ? & _)|[_ ?]]]; [lra|lra|assumption]. }
    assert (H15 : 0.15 <= p).
    { rewrite Hp. apply Q.min_glb; nra. }
    split; [|lra].
    apply (round_ge_int _ 15). change (inject_Z 15) with 15. lra.
Qed.

Lemma calcOffloadPenalty_floor_witness :
  12 <= Penalty.penaltyPercent (calcOffloadPenalty 0.01 (Some 300)).
Proof.
  refine (proj1 (calcOffloadPenalty_floor 0.01 (Some 300) _)).
  vm_compute. reflexivity.
Defined.

(** ** Quality tiers *)

(** X11.  Both tier scales are monotone: a higher score never gets a lower
    tier.  On the coding scale only a missing score is N/A, and at equal
    score the coding tier is never below the general one. *)
Theorem tiers_monotone (s s' : Q) (Hs : s <= s') :
  (tierRank (qualityTier s) <= tierRank (qualityTier s'))%nat /\
  (tierRank (codingQualityTier (Some s))
     <= tierRank (codingQualityTier (Some s')))%nat /\
  (tierRank (qualityTier s) <= tierRank (codingQualityTier (Some s)))%nat /\
  Tier.label (codingQualityTier (Some s)) <> "N/A" /\
  Tier.label (qualityTier s) <> "N/A" /\
  Tier.label (codingQualityTier None) = "N/A".
Proof.
  unfold qualityTier, codingQualityTier.
  repeat match goal with
  | |- context [Js.geb ?x ?k] =>
      let H := fresh "H" in
      destruct (Js.geb x k) eqn:H;
      [apply geb_true in H|apply geb_false in H]
  end; try lra; repeat split; try discriminate; try (vm_compute; lia).
Qed.

Lemma tiers_monotone_witness :
  (tierRank (qualityTier 49.3) <= tierRank (qualityTier 79.9))%nat.
Proof.
  refine (proj1 (tiers_monotone 49.3 79.9 _)). vm_compute. congruence.
Defined.

(** ** Ranking inside the buckets *)

Lemma or_else_pos (a b : Q) :
  0 < Js.or_else a b <-> 0 < a \/ (a == 0 /\ 0 < b).
Proof.
  unfold Js.or_else. destruct (Qeq_bool a 0) eqn:E.
  - apply Qeq_bool_iff in E. split; [tauto|]. intros [H|[_ H]]; lra.
  - apply Qeq_bool_neq in E. split; [tauto|]. intros [H|[H _]]; [exact H|tauto].
Qed.

Lemma lexDesc_sorted (k1 k2 : Entry.t -> Q) (l : list Entry.t) :
  StronglySorted (lexDesc k1 k2)
    (Js.sort (fun a b => Js.or_else (k1 b - k1 a) (k2 b - k2 a)) l).
Proof.
  apply sort_sorted; unfold lexDesc.
  - intros x y z. lra.
  - intros x y H. apply gtb_true, or_else_pos in H. lra.
  - intros x y H. apply gtb_false in H.
    destruct (Qlt_le_dec (k1 x) (k1 y)) as [Hlt|Hle].
    + exfalso. apply (Qle_not_lt _ _ H), or_else_pos. lra.
    + destruct (Qlt_le_dec (k1 y) (k1 x)) as [Hgt|Hge]; [now left|].
      right. split; [lra|].
      destruct (Qlt_le_dec (k2 x) (k2 y)) as [Hlt2|]; [|assumption].
      exfalso. apply (Qle_not_lt _ _ H), or_else_pos. lra.
Qed.

Lemma lexDescOpt_sorted (k1 : Entry.t -> option Q) (k2 : Entry.t -> Q)
    (l : list Entry.t) :
  StronglySorted (lexDescOpt k1 k2)
    (Js.sort (fun a b => Js.or_else (compareScores (k1 a) (k1 b)) (k2 b - k2 a)) l).
Proof.
  apply sort_sorted; unfold lexDescOpt, compareScores.
  - intros x y z. destruct (k1 x), (k1 y), (k1 z); try tauto; lra.
  - intros x y H. apply gtb_true, or_else_pos in H.
    destruct (k1 x), (k1 y); lra.
  - intros x y H. apply gtb_false in H.
    assert (Hn : ~ 0 < Js.or_else
                       match k1 x with
                       | Some a => match k1 y with Some b => b - a | None => -1 end
                       | None => match k1 y with Some _ => 1 | None => 0 end
                       end (k2 y - k2 x)) by (apply Qle_not_lt, H).
    rewrite or_else_pos in Hn. clear H.
    destruct (k1 x) as [a|], (k1 y) as [b|]; try tauto.
    + destruct (Qlt_le_dec a b); [lra|].
      destruct (Qlt_le_dec b a); [now left|]. right. split; [lra|].
      destruct (Qlt_le_dec (k2 x) (k2 y)); [|assumption]. exfalso. lra.
    + apply Hn. left. lra.
    + destruct (Qlt_le_dec (k2 x) (k2 y)); [|assumption]. exfalso. lra.
Qed.

(** X12.  Unless [sortBy] is ['swe-bench'], every bucket is ranked by MMLU
    score, best first; entries of equal score are ranked by larger usable
    context in fits and tight, and by larger weight in noFit. *)
Theorem bucketModels_mmlu_order
    (vram : Q) (bandwidth minContextK minTokPerSec : option Q)
    (requiredFeatures : list string) (sortBy : string) (systemRamGB : option Q)
    (allModels : list Model.t)
    (Hsort : sortBy <> "swe-bench") :
  let b :=
    bucketModels vram bandwidth minContextK minTokPerSec requiredFeatures sortBy
      systemRamGB allModels in
  StronglySorted (lexDesc entryMmlu Entry.maxCtxK) (Buckets.fits b) /\
  StronglySorted (lexDesc entryMmlu Entry.maxCtxK) (Buckets.tight b) /\
  StronglySorted (lexDesc entryMmlu entryWeight) (Buckets.noFit b).
Proof.
  cbv zeta. unfold bucketModels.
  destruct (fold_left place _ _) as [f t n].
  rewrite bool_decide_eq_false_2 by exact Hsort. cbn.
  repeat split; apply lexDesc_sorted.
Qed.

Lemma bucketModels_mmlu_order_witness :
  StronglySorted (lexDesc entryMmlu Entry.maxCtxK)
    (Buckets.fits (bucketModels 24 (Some 500) None None [] "mmlu" None
                     [smallModel; mediumModel; largeModel])).
Proof.
  refine (proj1 (bucketModels_mmlu_order 24 (Some 500) None None [] "mmlu" None
                   [smallModel; mediumModel; largeModel] _)).
  discriminate.
Defined.

(** X13.  When [sortBy] is ['swe-bench'], every bucket is ranked by
    SWE-bench score, best first, with the entries that have no score after
    all those that have one; ties (and the unscored entries among
    themselves) are ranked by larger usable context in fits and tight, and
    by larger weight in noFit. *)
Theorem bucketModels_swe_order
    (vram : Q) (bandwidth minContextK minTokPerSec : option Q)
    (requiredFeatures : list string) (systemRamGB : option Q)
    (allModels : list Model.t) :
  let b :=
    bucketModels vram bandwidth minContextK minTokPerSec requiredFeatures
      "swe-bench" systemRamGB allModels in
  StronglySorted (lexDescOpt entrySwe Entry.maxCtxK) (Buckets.fits b) /\
  StronglySorted (lexDescOpt entrySwe Entry.maxCtxK) (Buckets.tight b) /\
  StronglySorted (lexDescOpt entrySwe entryWeight) (Buckets.noFit b).
Proof.
  cbv zeta. unfold bucketModels.
  destruct (fold_left place _ _) as [f t n]. cbn.
  repeat split; apply lexDescOpt_sorted.
Qed.

(** ** What an entry records *)

Section EntryFacts.
Variables (vram : Q) (bandwidth minContextK minTokPerSec : option Q).
Variables (requiredFeatures : list string) (sortBy : string).
Variable systemRamGB : option Q.

Local Abbreviation entryOf :=
  (enrich vram bandwidth minContextK minTokPerSec requiredFeatures sortBy
     systemRamGB).

(** The filter flags, in terms of the other fields of the entry. *)
Lemma enrich_flags (m : Model.t) :
  Entry.meetsMinCtx (entryOf m) =
    match minContextK with
    | Some c => Js.geb (Entry.maxCtxK (entryOf m)) c
    | None => true
    end /\
  Entry.meetsMinSpeed (entryOf m) =
    match minTokPerSec, Entry.tokPerSec (entryOf m) with
    | Some s, Some t => Js.geb t s
    | _, _ => true
    end /\
  Entry.meetsFeatures (entryOf m) =
    (if (0 <? length requiredFeatures)%nat
     then forallb (fun f => bool_decide (f ∈ default [] (Model.features m)))
            requiredFeatures
     else true) /\
  Entry.tokPerSec (entryOf m) =
    match calcTokPerSec m bandwidth, Entry.offloadInfo (entryOf m) with
    | Some t, Some info => Some (Js.round (t * OffloadInfo.speedMultiplier info))
    | t, _ => t
    end.
Proof.
  unfold enrich.
  repeat match goal with
         | |- context [let '(_, _) := ?c in _] => destruct c
         end.
  cbn. repeat split. now destruct (calcTokPerSec m bandwidth).
Qed.

(** The context of an entry without offload plan. *)
Lemma enrich_maxCtxK_plain (m : Model.t) :
  Entry.offloadInfo (entryOf m) = None ->
  Entry.maxCtxK (entryOf m) =
    (if Entry.fitsAtAll (entryOf m) && Js.nonnull systemRamGB
     then CtxResult.maxCtxK (calcMaxContextWithOffload m vram systemRamGB)
     else calcMaxContext m vram) /\
  Entry.ctxInfo (entryOf m) =
    (if Entry.fitsAtAll (entryOf m) && Js.nonnull systemRamGB
     then (if CtxResult.usingSystemRam (calcMaxContextWithOffload m vram systemRamGB)
           then Some (CtxInfo.mk
                        (CtxResult.vramCtxK (calcMaxContextWithOffload m vram systemRamGB))
                        (CtxResult.ramCtxK (calcMaxContextWithOffload m vram systemRamGB)))
           else None)
     else None).
Proof.
  unfold enrich.
  destruct (if negb _ && _ then _ else _) as [[info|] wa];
    [destruct wa; cbn; discriminate|].
  intros _. destruct wa, (Js.nonnull systemRamGB); cbn; split; reflexivity.
Qed.

(** The speed multiplier of an attached offload plan. *)
Lemma enrich_offload_speed (m : Model.t) (info : OffloadInfo.t) :
  Entry.offloadInfo (entryOf m) = Some info ->
  exists p, 0 < p /\ p <= 0.5 /\ OffloadInfo.speedMultiplier info = 1 - p /\
            OffloadInfo.penaltyPercent info = Js.round (p * 100).
Proof.
  unfold enrich.
  destruct (negb _ && _); [|cbn; destruct (_ && _); discriminate].
  destruct (calcOffloadConfig m vram systemRamGB) as [|plan];
    [cbn; destruct (_ && _); discriminate|].
  destruct (Js.gtb (Offload.offloadRatio plan) 0) eqn:Hratio;
    [|cbn; destruct (_ && _); discriminate].
  cbn. intros [= <-]. cbn.
  apply gtb_true in Hratio.
  destruct (calcOffloadPenalty_pos _ bandwidth Hratio) as (p & Hp0 & Hp1 & -> & _).
  exists p. cbn. repeat split; assumption.
Qed.
End EntryFacts.

(** ** Guarantees of the buckets *)

Lemma bucketOf_InFits (e : Entry.t) :
  bucketOf e = InFits <->
  Entry.fitsAtAll e = true /\ Entry.modelSupportsCtx e = true /\
  Entry.offloadInfo e = None /\ Entry.meetsMinCtx e = true /\
  Entry.meetsMinSpeed e = true /\ Entry.meetsFeatures e = true /\
  Js.ltb (Entry.maxCtxK e) TIGHT_FIT_CONTEXT_K = false.
Proof.
  unfold bucketOf. split.
  - destruct (Entry.fitsAtAll e), (Entry.modelSupportsCtx e),
      (Entry.offloadInfo e), (Entry.meetsMinCtx e), (Entry.meetsMinSpeed e),
      (Entry.meetsFeatures e), (Js.ltb _ _); cbn; intros H;
      try discriminate H; repeat split.
  - intros (-> & -> & -> & -> & -> & -> & ->). reflexivity.
Qed.


(** X14.  Every entry of fits passes every filter: it comes from a catalog
    model whose weights and 1K of context fit in VRAM with no offload, it
    has at least 4K of usable context, it reaches the requested minimum
    context (and so does the model's trained context), its estimated speed,
    when known, reaches the requested minimum, and it has every required
    feature. *)
Theorem bucketModels_fits_guarantee
    (vram : Q) (bandwidth minContextK minTokPerSec : option Q)
    (requiredFeatures : list string) (sortBy : string) (systemRamGB : option Q)
    (allModels : list Model.t) (e : Entry.t)
    (He : e ∈ Buckets.fits
            (bucketModels vram bandwidth minContextK minTokPerSec
               requiredFeatures sortBy systemRamGB allModels)) :
  exists m, m ∈ allModels /\
    e = enrich vram bandwidth minContextK minTokPerSec requiredFeatures sortBy
          systemRamGB m /\
    Entry.offloadInfo e = None /\
    Model.weight_gb m + Model.kv_per_1k_gb m <= vram /\
    TIGHT_FIT_CONTEXT_K <= Entry.maxCtxK e /\
    (forall c, minContextK = Some c ->
       c <= Model.max_context_k m /\ c <= Entry.maxCtxK e) /\
    (forall s t, minTokPerSec = Some s -> Entry.tokPerSec e = Some t -> s <= t) /\
    (forall f, f ∈ requiredFeatures -> f ∈ default [] (Model.features m)).
Proof.
  apply (proj1 (in_bucket vram bandwidth minContextK minTokPerSec
                  requiredFeatures sortBy systemRamGB allModels e))
    in He as [Hin Hb].
  apply list_elem_of_fmap in Hin as (m & -> & Hm).
  apply bucketOf_InFits in Hb as (Hfit & Hsup & Hoff & Hctx & Hspeed & Hfeat & H4).
  exists m. split; [exact Hm|]. split; [reflexivity|]. split; [exact Hoff|].
  destruct (enrich_flags vram bandwidth minContextK minTokPerSec requiredFeatures
              sortBy systemRamGB m) as (Ectx & Espeed & Efeat & _).
  pose proof (enrich_offloadInfo vram bandwidth minContextK minTokPerSec
                requiredFeatures sortBy systemRamGB m) as Hplain.
  rewrite Hoff in Hplain. destruct Hplain as [Hfits _].
  rewrite Hfit in Hfits. symmetry in Hfits. apply geb_true in Hfits.
  apply ltb_false in H4.
  rewrite enrich_modelSupportsCtx in Hsup.
  rewrite Hctx in Ectx. rewrite Hspeed in Espeed. rewrite Hfeat in Efeat.
  repeat split; try assumption.
  - subst minContextK. now apply geb_true.
  - subst minContextK. symmetry in Ectx. now apply geb_true.
  - intros s t -> Ht. rewrite Ht in Espeed. symmetry in Espeed.
    now apply geb_true.
  - intros f Hf.
    destruct (0 <? length requiredFeatures)%nat eqn:Hlen.
    + symmetry in Efeat. rewrite forallb_forall in Efeat.
      apply list_elem_of_In, Efeat in Hf. now apply bool_decide_eq_true in Hf.
    + apply Nat.ltb_ge in Hlen. destruct requiredFeatures; [inversion Hf|].
      cbn in Hlen. lia.
Qed.

Lemma bucketModels_fits_guarantee_witness :
  exists m, m ∈ [smallModel; mediumModel] /\
    enrich 24 (Some 500) (Some 8) (Some 20) [] "mmlu" None mediumModel
    = enrich 24 (Some 500) (Some 8) (Some 20) [] "mmlu" None m /\
    Entry.offloadInfo
      (enrich 24 (Some 500) (Some 8) (Some 20) [] "mmlu" None mediumModel) = None /\
    Model.weight_gb m + Model.kv_per_1k_gb m <= 24 /\
    TIGHT_FIT_CONTEXT_K
      <= Entry.maxCtxK
           (enrich 24 (Some 500) (Some 8) (Some 20) [] "mmlu" None mediumModel) /\
    (forall c, Some 8 = Some c ->
       c <= Model.max_context_k m /\
       c <= Entry.maxCtxK
              (enrich 24 (Some 500) (Some 8) (Some 20) [] "mmlu" None mediumModel)) /\
    (forall s t, Some 20 = Some s ->
       Entry.tokPerSec
         (enrich 24 (Some 500) (Some 8) (Some 20) [] "mmlu" None mediumModel)
       = Some t -> s <= t) /\
    (forall f, f ∈ @nil string -> f ∈ default [] (Model.features m)).
Proof.
  refine (bucketModels_fits_guarantee 24 (Some 500) (Some 8) (Some 20) []
            "mmlu" None [smallModel; mediumModel] _ _).
  vm_compute. constructor.
Defined.



(** ** Speed estimates inside the engine *)

Lemma enrich_unknown_bandwidth
    (vram : Q) (minContextK minTokPerSec : option Q)
    (requiredFeatures : list string) (sortBy : string) (systemRamGB : option Q)
    (m : Model.t) :
  enrich vram None minContextK minTokPerSec requiredFeatures sortBy systemRamGB m
  = enrich vram None minContextK None requiredFeatures sortBy systemRamGB m /\
  Entry.tokPerSec
    (enrich vram None minContextK minTokPerSec requiredFeatures sortBy
       systemRamGB m) = None.
Proof.
  unfold enrich.
  repeat match goal with
         | |- context [let '(_, _) := ?c in _] => destruct c
         end.
  cbn. split; [|reflexivity]. now destruct minTokPerSec.
Qed.

(** X16.  With an unknown bandwidth (as for a manually entered VRAM) no
    entry has a speed estimate and the minimum-speed filter has no effect:
    the result is the one obtained with no minimum speed at all. *)
Theorem bucketModels_unknown_bandwidth
    (vram : Q) (minContextK minTokPerSec : option Q)
    (requiredFeatures : list string) (sortBy : string) (systemRamGB : option Q)
    (allModels : list Model.t) :
  let b :=
    bucketModels vram None minContextK minTokPerSec requiredFeatures sortBy
      systemRamGB allModels in
  b = bucketModels vram None minContextK None requiredFeatures sortBy
        systemRamGB allModels /\
  (forall e, e ∈ Buckets.fits b ++ Buckets.tight b ++ Buckets.noFit b ->
     Entry.tokPerSec e = None /\ Entry.meetsMinSpeed e = true).
Proof.
  cbv zeta. split.
  - unfold bucketModels.
    rewrite (map_ext _ _ (fun m => proj1 (enrich_unknown_bandwidth vram
               minContextK minTokPerSec requiredFeatures sortBy systemRamGB m))).
    reflexivity.
  - intros e He. apply enrich_in_buckets in He as (m & -> & _).
    destruct (enrich_unknown_bandwidth vram minContextK minTokPerSec
                requiredFeatures sortBy systemRamGB m) as [_ Htps].
    split; [exact Htps|].
    destruct (enrich_flags vram None minContextK minTokPerSec requiredFeatures
                sortBy systemRamGB m) as (_ & -> & _).
    rewrite Htps. now destruct minTokPerSec.
Qed.

(** X17.  For a model of non-negative weight and a known, non-negative
    bandwidth, an entry that runs with offloaded weights is never estimated
    faster than calcTokPerSec says for the same model, and never slower
    than half of that, rounded. *)
Theorem enrich_offload_slower
    (vram b : Q) (minContextK minTokPerSec : option Q)
    (requiredFeatures : list string) (sortBy : string) (systemRamGB : option Q)
    (m : Model.t) (info : OffloadInfo.t)
    (Hw : 0 <= Model.weight_gb m)
    (Hb : 0 <= b)
    (Hoff : Entry.offloadInfo
              (enrich vram (Some b) minContextK minTokPerSec requiredFeatures
                 sortBy systemRamGB m) = Some info) :
  exists t t0,
    Entry.tokPerSec
      (enrich vram (Some b) minContextK minTokPerSec requiredFeatures sortBy
         systemRamGB m) = Some t /\
    calcTokPerSec m (Some b) = Some t0 /\
    t <= t0 /\ Js.round (t0 * 0.5) <= t.
Proof.
  destruct (enrich_flags vram (Some b) minContextK minTokPerSec requiredFeatures
              sortBy systemRamGB m) as (_ & _ & _ & Htps).
  rewrite Hoff in Htps.
  destruct (enrich_offload_speed vram (Some b) minContextK minTokPerSec
              requiredFeatures sortBy systemRamGB m info Hoff)
    as (p & Hp0 & Hp1 & Hmult & _).
  rewrite Hmult in Htps. cbn in Htps.
  eexists _, _. split; [exact Htps|]. split; [reflexivity|].
  assert (Ht0 : 0 <= Js.round (b / (Model.weight_gb m + INFERENCE_OVERHEAD_GB))).
  { apply round_nonneg, div_nonneg; unfold INFERENCE_OVERHEAD_GB; lra. }
  revert Ht0. set (t0 := Js.round _). intros Ht0. split.
  - unfold t0 at 2. unfold Js.round at 2. apply round_le_int.
    fold (Js.round (b / (Model.weight_gb m + INFERENCE_OVERHEAD_GB))).
    fold t0. nra.
  - apply round_mono. nra.
Qed.

Lemma enrich_offload_slower_witness :
  exists t t0,
    Entry.tokPerSec
      (enrich 8 (Some 500) None None [] "mmlu" (Some 32) mediumModel) = Some t /\
    calcTokPerSec mediumModel (Some 500) = Some t0 /\
    t <= t0 /\ Js.round (t0 * 0.5) <= t.
Proof.
  refine (enrich_offload_slower 8 500 None None [] "mmlu" (Some 32)
            mediumModel _ _ _ _).
  - vm_compute. congruence.
  - vm_compute. congruence.
  - reflexivity.
Defined.

Lemma context_le_cap (m : Model.t) (vram : Q) (systemRamGB : option Q) :
  0 <= Model.max_context_k m ->
  calcMaxContext m vram <= Model.max_context_k m /\
  CtxResult.maxCtxK (calcMaxContextWithOffload m vram systemRamGB)
    <= Model.max_context_k m.
Proof.
  intros Hcap. unfold calcMaxContext, calcMaxContextWithOffload.
  destruct (Js.leb (vram - Model.weight_gb m) 0); [cbn; lra|].
  destruct (Js.leb (Model.kv_per_1k_gb m) 0); [cbn; lra|].
  destruct systemRamGB; cbn; split; apply min_le_r.
Qed.

(** X18.  Whatever the hardware and the filters, the usable context of an
    entry never exceeds the trained context of its model (for a trained
    context that is not negative): with or without system RAM, with or
    without an offload plan. *)
Theorem bucketModels_context_capped
    (vram : Q) (bandwidth minContextK minTokPerSec : option Q)
    (requiredFeatures : list string) (sortBy : string) (systemRamGB : option Q)
    (allModels : list Model.t) (e : Entry.t)
    (He : let b :=
            bucketModels vram bandwidth minContextK minTokPerSec requiredFeatures
              sortBy systemRamGB allModels in
          e ∈ Buckets.fits b ++ Buckets.tight b ++ Buckets.noFit b)
    (Hcap : 0 <= Model.max_context_k (Entry.model e)) :
  Entry.maxCtxK e <= Model.max_context_k (Entry.model e).
Proof.
  apply enrich_in_buckets in He as (m & -> & _).
  rewrite enrich_model in Hcap |- *.
  pose proof (enrich_offloadInfo vram bandwidth minContextK minTokPerSec
                requiredFeatures sortBy systemRamGB m) as Hoff.
  destruct (Entry.offloadInfo _) as [info|] eqn:Einfo.
  - destruct Hoff as (_ & _ & _ & _ & ->).
    destruct (Js.gtb _ 0); [apply min_le_r|lra].
  - destruct (enrich_maxCtxK_plain vram bandwidth minContextK minTokPerSec
                requiredFeatures sortBy systemRamGB m Einfo) as [-> _].
    destruct (context_le_cap m vram systemRamGB Hcap).
    now destruct (_ && _).
Qed.

Lemma bucketModels_context_capped_witness :
  Entry.maxCtxK (enrich 2 (Some 500) None None [] "mmlu" (Some 32) smallModel)
  <= Model.max_context_k
       (Entry.model
          (enrich 2 (Some 500) None None [] "mmlu" (Some 32) smallModel)).
Proof.
  refine (bucketModels_context_capped 2 (Some 500) None None [] "mmlu"
            (Some 32) [smallModel] _ _ _).
  - vm_compute. constructor.
  - vm_compute. congruence.
Defined.

(** ** The GPU count (GpuInput.svelte) and pooled resources *)

Lemma pooled_vram_linear (v : Q) (b : option Q) (q : Q) :
  Resources.vram (calcMultiGpuResources v b (Some q)) == v * q.
Proof.
  unfold calcMultiGpuResources. destruct (Js.eqb q 1) eqn:E.
  - apply Qeq_bool_iff in E. cbn. rewrite E. lra.
  - destruct b; reflexivity.
Qed.

Lemma clampQuantity_range (gpuQuantity : option Q) :
  exists n, clampQuantity gpuQuantity = inject_Z n /\ (1 <= n <= 8)%Z.
Proof.
  unfold clampQuantity, Js.max, Js.min, Js.floor, Qmax, Qmin,
    GenericMinMax.gmax, GenericMinMax.gmin.
  set (z := Qfloor _).
  destruct (8 ?= inject_Z z) eqn:E8.
  - exists 8%Z. split; [reflexivity|lia].
  - exists 8%Z. split; [reflexivity|lia].
  - apply Qgt_alt in E8. change 8 with (inject_Z 8) in E8.
    rewrite <- Zlt_Qlt in E8.
    destruct (1 ?= inject_Z z) eqn:E1.
    + exists 1%Z. split; [reflexivity|lia].
    + apply Qlt_alt in E1. change 1 with (inject_Z 1) in E1.
      rewrite <- Zlt_Qlt in E1. exists z. split; [reflexivity|lia].
    + exists 1%Z. split; [reflexivity|lia].
Qed.

(** X19.  [onQuantityChange] always stores a whole GPU count between 1 and
    8 (1 for an emptied field), leaves a valid count as it is, and then
    publishes the pooled resources: no VRAM and no bandwidth while no base
    VRAM is known, else VRAM equal to base VRAM times the stored count, and
    an unknown base bandwidth stays unknown. *)
Theorem onQuantityChange_contract (baseVram baseBandwidth gpuQuantity : option Q) :
  let r := onQuantityChange baseVram baseBandwidth gpuQuantity in
  (exists n, fst r = inject_Z n /\ (1 <= n <= 8)%Z) /\
  clampQuantity None = 1 /\
  (forall n, (1 <= n <= 8)%Z -> clampQuantity (Some (inject_Z n)) = inject_Z n) /\
  match baseVram with
  | None => snd r = (None, None)
  | Some v => exists v', fst (snd r) = Some v' /\ v' == v * fst r
  end /\
  (baseBandwidth = None -> snd (snd r) = None).
Proof.
  cbv zeta. unfold onQuantityChange. cbn [fst snd].
  split; [apply clampQuantity_range|]. split; [reflexivity|]. split; [|split].
  - intros n Hn.
    assert (Hcases : n = 1%Z \/ n = 2%Z \/ n = 3%Z \/ n = 4%Z \/ n = 5%Z \/
                     n = 6%Z \/ n = 7%Z \/ n = 8%Z) by lia.
    destruct Hcases as [->|[->|[->|[->|[->|[->|[->| ->]]]]]]]; reflexivity.
  - unfold applyMultiGpu. destruct baseVram as [v|]; [|reflexivity].
    cbn [fst snd]. eexists. split; [reflexivity|]. apply pooled_vram_linear.
  - intros ->. unfold applyMultiGpu, calcMultiGpuResources.
    destruct baseVram; [|reflexivity]. cbn [snd].
    now destruct (Js.eqb _ 1).
Qed.

Lemma round_above (x : Q) : x - 0.5 < Js.round x.
Proof.
  unfold Js.round. pose proof (Qlt_floor (x + 0.5)) as H.
  rewrite inject_Z_plus in H. change (inject_Z 1) with 1 in H. lra.
Qed.

(** X20.  For a GPU with at least 1 GB/s of bandwidth and counts between 1
    and 8, adding GPUs never lowers the pooled bandwidth, and the pooled
    bandwidth is never below that of a single GPU nor above the plain sum. *)
Theorem calcMultiGpuResources_bandwidth_monotone (v b : Q) (n n' : Z)
    (Hb : 1 <= b)
    (Hn : (1 <= n)%Z) (Hnn : (n <= n')%Z) (Hn' : (n' <= 8)%Z) :
  exists w w',
    Resources.bandwidth (calcMultiGpuResources v (Some b) (Some (inject_Z n)))
      = Some w /\
    Resources.bandwidth (calcMultiGpuResources v (Some b) (Some (inject_Z n')))
      = Some w' /\
    b <= w /\ w <= w' /\ w' <= b * inject_Z n' + 0.5.
Proof.
  assert (Hc : n = 1%Z \/ n = 2%Z \/ n = 3%Z \/ n = 4%Z \/ n = 5%Z \/
               n = 6%Z \/ n = 7%Z \/ n = 8%Z) by lia.
  assert (Hc' : n' = 1%Z \/ n' = 2%Z \/ n' = 3%Z \/ n' = 4%Z \/ n' = 5%Z \/
                n' = 6%Z \/ n' = 7%Z \/ n' = 8%Z) by lia.
  assert (Hup : forall x, Js.round x <= x + 0.5).
  { intros x. unfold Js.round. apply Qfloor_le. }
  destruct Hc as [->|[->|[->|[->|[->|[->|[->| ->]]]]]]];
    destruct Hc' as [->|[->|[->|[->|[->|[->|[->| ->]]]]]]];
    try lia; unfold calcMultiGpuResources, inject_Z; eval_eqb;
    eexists _, _; (split; [reflexivity|]); (split; [reflexivity|]);
    repeat match goal with
    | |- context [Js.round ?x] =>
        lazymatch goal with
        | _ : x - 0.5 < Js.round x |- _ => fail
        | _ => pose proof (round_above x); pose proof (Hup x)
        end
    end;
    (split; [|split]); try lra; apply round_mono; lra.
Qed.

Lemma calcMultiGpuResources_bandwidth_monotone_witness :
  exists w w',
    Resources.bandwidth (calcMultiGpuResources 24 (Some 1008) (Some (inject_Z 2)))
      = Some w /\
    Resources.bandwidth (calcMultiGpuResources 24 (Some 1008) (Some (inject_Z 3)))
      = Some w' /\
    1008 <= w /\ w <= w' /\ w' <= 1008 * inject_Z 3 + 0.5.
Proof.
  refine (calcMultiGpuResources_bandwidth_monotone 24 1008 2 3 _ _ _ _);
    try lia. vm_compute. congruence.
Defined.

(** ** Grouping the buckets (ModelResults.svelte) *)

Lemma groupVariants_conserves (models : list Entry.t) :
  concat (map Group.variants (groupVariants models)) ≡ₚ models.
Proof.
  rewrite groupVariants_unfold.
  pose proof (groupLoop_inv models [] [] ∅ groupInv_nil) as Hinv.
  cbn [app] in Hinv.
  destruct (fold_left groupStep models ([], ∅)) as [groups seen].
  destruct Hinv as (_ & _ & _ & Hperm). cbn [fst] in *.
  now rewrite sortVariants_concat.
Qed.

(** X21.  Grouping the three buckets of one result, as the results view
    does, shows every catalog model exactly once: the variants of all the
    groups of the three grouped buckets are a rearrangement of the enriched
    catalog, and a variant listed under a bucket's group is an entry of
    that bucket. *)
Theorem grouped_buckets_conserve
    (vram : Q) (bandwidth minContextK minTokPerSec : option Q)
    (requiredFeatures : list string) (sortBy : string) (systemRamGB : option Q)
    (allModels : list Model.t) :
  let b :=
    bucketModels vram bandwidth minContextK minTokPerSec requiredFeatures sortBy
      systemRamGB allModels in
  let shown (bucket : list Entry.t) :=
    concat (map Group.variants (groupVariants bucket)) in
  shown (Buckets.fits b) ++ shown (Buckets.tight b) ++ shown (Buckets.noFit b)
    ≡ₚ map (enrich vram bandwidth minContextK minTokPerSec requiredFeatures
              sortBy systemRamGB) allModels /\
  (length (shown (Buckets.fits b)) + length (shown (Buckets.tight b))
   + length (shown (Buckets.noFit b)) = length allModels)%nat /\
  (forall bucket g v, g ∈ groupVariants bucket -> v ∈ Group.variants g ->
     v ∈ bucket).
Proof.
  cbv zeta. split; [|split].
  - rewrite !groupVariants_conserves. apply buckets_partition.
  - rewrite !groupVariants_conserves.
    pose proof (buckets_partition vram bandwidth minContextK minTokPerSec
                  requiredFeatures sortBy systemRamGB allModels) as H.
    apply Permutation_length in H. rewrite !length_app, length_map in H. lia.
  - intros bucket g v Hg Hv.
    rewrite <- (groupVariants_conserves bucket).
    apply list_elem_of_In, in_concat. exists (Group.variants g). split.
    + apply in_map, list_elem_of_In, Hg.
    + apply list_elem_of_In, Hv.
Qed.
